(** * Book Tracker API: the request handlers of [src/index.js]

    A shallow embedding of the Express application of [src/index.js]: the
    in-memory array [books], the seven route handlers, and the router, which
    serves a request with the first registered route that matches it.

    Modelling conventions.
    - A JavaScript value read from a JSON payload is a [JsVal]: [None] is
      [undefined] (the member is absent), [Some j] a JSON value.  Numbers are
      the integers ([Z]), as ids and years are.
    - The handlers compare [year] with 1900.  On [undefined], [null],
      booleans and numbers the comparison is computed here; on strings,
      arrays and objects the language decides it through its conversions to
      a number, and the development is parametric in that outcome (the
      section variable [coerce_lt]), so that what is proved holds whatever
      the conversion gives.
    - Text is a [string] of characters; [toLowerCase] and the white space
      skipped by [parseInt] are those of ASCII text.
    - [createdAt] is a clock reading in milliseconds since the epoch; the
      reading taken by [new Date()] is an input of the step.
    - A handler is a function from the registry to the new registry and the
      response: the source mutates [books], here the state is passed.
    - A path is the list of its decoded, non-empty segments.
    - [req.body] is [None] when the JSON middleware has left it [undefined]
      (a request without a parsed body), and the members of the parsed body
      otherwise; destructuring an [undefined] body throws. *)

From Stdlib Require Import ZArith Lia Ascii String.
From stdpp Require Import base option list strings gmap.

Set Warnings "-register-all".

Open Scope string_scope.
Open Scope list_scope.
Open Scope Z_scope.

(** ** JavaScript values *)

Inductive Json : Type :=
| JNull
| JBool (b : bool)
| JNum (n : Z)
| JStr (s : string)
| JArr (items : list Json)
| JObj (members : list (string * Json)).

Abbreviation JsVal := (option Json).
Abbreviation undefined := (@None Json).

(** ToBoolean: [undefined], [null], [false], [0] and the empty string are
    falsy, everything else (arrays and objects too) is truthy. *)
Definition truthy (v : JsVal) : bool :=
  match v with
  | None => false
  | Some JNull => false
  | Some (JBool b) => b
  | Some (JNum n) => negb (n =? 0)
  | Some (JStr s) => negb (String.eqb s "")
  | Some (JArr _) => true
  | Some (JObj _) => true
  end.

(** [v === true] *)
Definition is_true_strict (v : JsVal) : bool :=
  match v with
  | Some (JBool true) => true
  | _ => false
  end.

(** [typeof v !== 'undefined'] *)
Definition is_defined (v : JsVal) : bool :=
  match v with
  | None => false
  | Some _ => true
  end.

(** ** Text primitives *)

Definition code (c : ascii) : Z := Z.of_N (N_of_ascii c).

Definition lower_char (c : ascii) : ascii :=
  if (65 <=? code c) && (code c <=? 90)
  then ascii_of_N (N_of_ascii c + 32)
  else c.

(** [s.toLowerCase()] *)
Fixpoint toLowerCase (s : string) : string :=
  match s with
  | EmptyString => EmptyString
  | String c r => String (lower_char c) (toLowerCase r)
  end.

Fixpoint starts_with (p s : string) : bool :=
  match p, s with
  | EmptyString, _ => true
  | String a p', String b s' => Ascii.eqb a b && starts_with p' s'
  | String _ _, EmptyString => false
  end.

(** [hay.includes(needle)] *)
Fixpoint includes (hay needle : string) : bool :=
  starts_with needle hay ||
  match hay with
  | EmptyString => false
  | String _ r => includes r needle
  end.

(** *** parseInt

    [parseInt(s)] without a radix: leading white space is dropped, then an
    optional sign, then an optional [0x]/[0X] that switches to radix 16; the
    longest run of digits of the radix is the value; no digit at all gives
    [NaN], here [None]. *)

Definition is_ws (c : ascii) : bool :=
  ((9 <=? code c) && (code c <=? 13)) || (code c =? 32).

Fixpoint skip_ws (s : string) : string :=
  match s with
  | String c r => if is_ws c then skip_ws r else s
  | EmptyString => s
  end.

Definition digit_val (c : ascii) : option Z :=
  let n := code c in
  if (48 <=? n) && (n <=? 57) then Some (n - 48)
  else if (97 <=? n) && (n <=? 122) then Some (n - 87)
  else if (65 <=? n) && (n <=? 90) then Some (n - 55)
  else None.

Definition digit_in (radix : Z) (c : ascii) : option Z :=
  match digit_val c with
  | Some d => if d <? radix then Some d else None
  | None => None
  end.

(** The value of the longest prefix of digits, [acc] being the value read so
    far ([None]: no digit yet). *)
Fixpoint read_digits (radix : Z) (acc : option Z) (s : string) : option Z :=
  match s with
  | String c r =>
      match digit_in radix c with
      | Some d => read_digits radix (Some (default 0 acc * radix + d)) r
      | None => acc
      end
  | EmptyString => acc
  end.

Definition strip_sign (s : string) : Z * string :=
  match s with
  | String "-" r => (-1, r)
  | String "+" r => (1, r)
  | _ => (1, s)
  end.

Definition strip_radix (s : string) : Z * string :=
  match s with
  | String "0" (String "x" r) => (16, r)
  | String "0" (String "X" r) => (16, r)
  | _ => (10, s)
  end.

Definition parseInt (s : string) : option Z :=
  let '(sign, s1) := strip_sign (skip_ws s) in
  let '(radix, s2) := strip_radix s1 in
  match read_digits radix None s2 with
  | Some n => Some (sign * n)
  | None => None
  end.

(** ** The registry *)

Record Book : Type := mkBook {
  id : Z;
  title : JsVal;
  author : JsVal;
  year : JsVal;
  completed : JsVal;
  createdAt : Z
}.

Abbreviation Registry := (list Book).

(** [let books = [...]], the three records the process starts with. *)
Definition books : Registry :=
  [ mkBook 1 (Some (JStr "The Begining After The End"))
             (Some (JStr "James Vladimir")) (Some (JNum 2018))
             (Some (JBool false)) 1736899200000;
    mkBook 2 (Some (JStr "Clean Code"))
             (Some (JStr "Khine Akira")) (Some (JNum 2008))
             (Some (JBool true)) 1708387200000;
    mkBook 3 (Some (JStr "Saga of Tanya the Evil"))
             (Some (JStr "Saori Metsubayashi")) (Some (JNum 2008))
             (Some (JBool true)) 1708387200000 ].

Definition ids (bs : Registry) : list Z := id <$> bs.

Definition set_title (v : JsVal) (b : Book) : Book :=
  mkBook (id b) v (author b) (year b) (completed b) (createdAt b).
Definition set_author (v : JsVal) (b : Book) : Book :=
  mkBook (id b) (title b) v (year b) (completed b) (createdAt b).
Definition set_year (v : JsVal) (b : Book) : Book :=
  mkBook (id b) (title b) (author b) v (completed b) (createdAt b).
Definition set_completed (v : JsVal) (b : Book) : Book :=
  mkBook (id b) (title b) (author b) (year b) v (createdAt b).

(** [b.id === n] for the result [n] of [parseInt]: [NaN] equals nothing. *)
Definition id_is (n : option Z) (b : Book) : Prop := n = Some (id b).

Global Instance id_is_dec n b : Decision (id_is n b).
Proof. unfold id_is. solve_decision. Defined.

(** [books.find(b => b.id === n)] and [books.findIndex(b => b.id === n)] in
    one: the first index holding a match, with the Book there. *)
Definition find_book (n : option Z) (bs : Registry) : option (nat * Book) :=
  list_find (id_is n) bs.

(** ** Requests and responses *)

Inductive Method : Type := GET | POST | PUT | DELETE.

Global Instance Method_eq_dec : EqDecision Method.
Proof. solve_decision. Defined.

(** A request: the method, the decoded segments of the path, the parsed
    query string ([req.query]) and [req.body]: the members of the parsed JSON
    body, or [None] when the middleware has parsed none and [req.body] is
    [undefined]. *)
Record Request : Type := mkRequest {
  method : Method;
  path : list string;
  query : gmap string Json;
  body : option (gmap string Json)
}.

Inductive Data : Type :=
| OneBook (b : Book)
| ManyBooks (l : list Book).

(** The JSON envelope [{success, data?, message?}]. *)
Record Envelope : Type := mkEnvelope {
  success : bool;
  data : option Data;
  message : option string
}.

(** What the client gets: a JSON reply with its status; the framework's own
    404 when no route matches; its 500 when the handler throws. *)
Inductive Response : Type :=
| Reply (status : Z) (e : Envelope)
| NoRoute
| Thrown.

Definition ok_books (l : list Book) : Response :=
  Reply 200 (mkEnvelope true (Some (ManyBooks l)) None).

Definition fail (status : Z) (msg : string) : Response :=
  Reply status (mkEnvelope false None (Some msg)).

Definition not_found : Response := fail 404 "Book not found".

(** ** The handlers *)

(** [Math.max(...books.map(b => b.id)) + 1], or 1 for an empty registry. *)
Definition newId (bs : Registry) : Z :=
  match ids bs with
  | [] => 1
  | i :: rest => foldl Z.max i rest + 1
  end.

(** [parseInt(req.params.id)] *)
Definition param_id (params : gmap string string) : option Z :=
  params !! "id" ≫= parseInt.

(** 1. [app.get('/books')] *)
Definition get_books (bs : Registry) : Registry * Response :=
  (bs, ok_books bs).

(** 2. [app.get('/books/:id')] *)
Definition get_book (params : gmap string string) (bs : Registry)
  : Registry * Response :=
  let id := param_id params in
  match find_book id bs with
  | None => (bs, not_found)
  | Some (_, book) => (bs, Reply 200 (mkEnvelope true (Some (OneBook book)) None))
  end.

(** 5. [app.delete('/books/:id')]; [books.splice(bookIndex, 1)] is
    [delete bookIndex]. *)
Definition delete_book (params : gmap string string) (bs : Registry)
  : Registry * Response :=
  let id := param_id params in
  match find_book id bs with
  | None => (bs, not_found)
  | Some (bookIndex, _) =>
      (delete bookIndex bs,
       Reply 200 (mkEnvelope true None (Some "Book deleted successfully")))
  end.

(** 6. [app.get('/books/completed')] *)
Definition get_completed (bs : Registry) : Registry * Response :=
  let completedBooks := List.filter (λ book, is_true_strict (completed book)) bs in
  (bs, ok_books completedBooks).

(** [books.filter(book => book.title.toLowerCase().includes(searchTerm))]:
    [None] when the callback throws, which it does at a title that is not a
    string (it has no [toLowerCase]). *)
Fixpoint filter_by_title (searchTerm : string) (bs : Registry)
  : option (list Book) :=
  match bs with
  | [] => Some []
  | book :: rest =>
      match title book with
      | Some (JStr t) =>
          match filter_by_title searchTerm rest with
          | Some found =>
              Some (if includes (toLowerCase t) searchTerm
                    then book :: found else found)
          | None => None
          end
      | _ => None
      end
  end.

(** 7. [app.get('/books/search')] *)
Definition search_books (q : gmap string Json) (bs : Registry)
  : Registry * Response :=
  let title := q !! "title" in
  if negb (truthy title)
  then (bs, fail 400 "Title query parameter is required")
  else
    match title with
    | Some (JStr t) =>
        let searchTerm := toLowerCase t in
        match filter_by_title searchTerm bs with
        | Some matchingBooks => (bs, ok_books matchingBooks)
        | None => (bs, Thrown)
        end
    | _ => (bs, Thrown)
    end.

Section Coercion.

(** The abstract relational comparison [n < v] of the language for an
    operand [v] that is a string, an array or an object, which it decides
    through ToPrimitive and ToNumber: [None] when the conversion throws,
    [Some None] when the outcome is undefined ([v] converts to [NaN]). *)
Variable coerce_lt : Z → Json → option (option bool).

(** [n < v] as the language computes it; [undefined] converts to [NaN],
    [null] to 0, [false] and [true] to 0 and 1. *)
Definition is_less_than (n : Z) (v : JsVal) : option (option bool) :=
  match v with
  | None => Some None
  | Some JNull => Some (Some (n <? 0))
  | Some (JBool b) => Some (Some (n <? (if b then 1 else 0)))
  | Some (JNum m) => Some (Some (n <? m))
  | Some j => coerce_lt n j
  end.

(** [v > n]: the comparison [n < v], an undefined outcome being [false]. *)
Definition js_gt (v : JsVal) (n : Z) : option bool :=
  match is_less_than n v with
  | None => None
  | Some (Some r) => Some r
  | Some None => Some false
  end.

(** [v <= n]: [true] exactly when [n < v] is [false]. *)
Definition js_le (v : JsVal) (n : Z) : option bool :=
  match is_less_than n v with
  | None => None
  | Some (Some r) => Some (negb r)
  | Some None => Some false
  end.

(** 3. [app.post('/books')]; [now] is the reading of [new Date()].
    [const { title, author, year } = req.body] throws a TypeError when
    [req.body] is [undefined]. *)
Definition create_book (now : Z) (reqBody : option (gmap string Json))
    (bs : Registry) : Registry * Response :=
  match reqBody with
  | None => (bs, Thrown)
  | Some payload =>
      let title := payload !! "title" in
      let author := payload !! "author" in
      let year := payload !! "year" in
      if negb (truthy title) || negb (truthy author) || negb (truthy year)
      then (bs, fail 400 "All fields (title, author, year) are required")
      else
        match js_le year 1900 with
        | None => (bs, Thrown)
        | Some true => (bs, fail 400 "Year must be greater than 1900")
        | Some false =>
            let newBook :=
              mkBook (newId bs) title author year (Some (JBool false)) now in
            (bs ++ [newBook],
             Reply 201 (mkEnvelope true (Some (OneBook newBook)) None))
        end
  end.

(** [year && year <= 1900] *)
Definition year_rejected (year : JsVal) : option bool :=
  if truthy year then js_le year 1900 else Some false.

(** The four assignments of the update handler, in their order. *)
Definition assign_fields (title author year completed : JsVal)
    (bookIndex : nat) (bs : Registry) : Registry :=
  let bs1 := if truthy title then alter (set_title title) bookIndex bs else bs in
  let bs2 := if truthy author then alter (set_author author) bookIndex bs1 else bs1 in
  let bs3 := if truthy year then alter (set_year year) bookIndex bs2 else bs2 in
  if is_defined completed then alter (set_completed completed) bookIndex bs3 else bs3.

(** 4. [app.put('/books/:id')]; the Book is looked up first, then
    [const { title, author, year, completed } = req.body] throws a TypeError
    when [req.body] is [undefined]. *)
Definition update_book (params : gmap string string)
    (reqBody : option (gmap string Json)) (bs : Registry)
  : Registry * Response :=
  let id := param_id params in
  match find_book id bs with
  | None => (bs, not_found)
  | Some (bookIndex, _) =>
      match reqBody with
      | None => (bs, Thrown)
      | Some payload =>
          let title := payload !! "title" in
          let author := payload !! "author" in
          let year := payload !! "year" in
          let completed := payload !! "completed" in
          match year_rejected year with
          | None => (bs, Thrown)
          | Some true => (bs, fail 400 "Year must be greater than 1900")
          | Some false =>
              let bs' := assign_fields title author year completed bookIndex bs in
              (bs',
               Reply 200 (mkEnvelope true (OneBook <$> bs' !! bookIndex)
                                     (Some "Book updated successfully")))
          end
      end
  end.

(** ** The router *)

Inductive Seg : Type :=
| Lit (s : string)
| Param (name : string).

Inductive Handler : Type :=
| GetBooks | GetBook | CreateBook | UpdateBook | DeleteBook
| GetCompleted | SearchBooks.

(** The routes, in the order [src/index.js] registers them. *)
Definition routes : list (Method * list Seg * Handler) :=
  [ (GET, [Lit "books"], GetBooks);
    (GET, [Lit "books"; Param "id"], GetBook);
    (POST, [Lit "books"], CreateBook);
    (PUT, [Lit "books"; Param "id"], UpdateBook);
    (DELETE, [Lit "books"; Param "id"], DeleteBook);
    (GET, [Lit "books"; Lit "completed"], GetCompleted);
    (GET, [Lit "books"; Lit "search"], SearchBooks) ].

(** A pattern against the segments of a path: a literal matches its own
    text whatever the case of the letters, a parameter any non-empty
    segment, which it binds. *)
Fixpoint match_path (pat : list Seg) (p : list string)
  : option (gmap string string) :=
  match pat, p with
  | [], [] => Some ∅
  | Lit s :: pat', x :: p' =>
      if String.eqb (toLowerCase s) (toLowerCase x)
      then match_path pat' p' else None
  | Param name :: pat', x :: p' =>
      if String.eqb x "" then None
      else match match_path pat' p' with
           | Some params => Some (<[name := x]> params)
           | None => None
           end
  | _, _ => None
  end.

(** The first registered route whose method and pattern match. *)
Fixpoint route (rs : list (Method * list Seg * Handler)) (req : Request)
  : option (Handler * gmap string string) :=
  match rs with
  | [] => None
  | (m, pat, h) :: rest =>
      if decide (m = method req)
      then match match_path pat (path req) with
           | Some params => Some (h, params)
           | None => route rest req
           end
      else route rest req
  end.

Definition run (h : Handler) (params : gmap string string) (now : Z)
    (req : Request) (bs : Registry) : Registry * Response :=
  match h with
  | GetBooks => get_books bs
  | GetBook => get_book params bs
  | CreateBook => create_book now (body req) bs
  | UpdateBook => update_book params (body req) bs
  | DeleteBook => delete_book params bs
  | GetCompleted => get_completed bs
  | SearchBooks => search_books (query req) bs
  end.

(** One request served against the registry. *)
Definition dispatch (now : Z) (req : Request) (bs : Registry)
  : Registry * Response :=
  match route routes req with
  | Some (h, params) => run h params now req bs
  | None => (bs, NoRoute)
  end.

(** The registries the process can hold: [books] as initialised, then one
    request after another. *)
Inductive reachable : Registry → Prop :=
| reach_init : reachable books
| reach_step bs now req :
    reachable bs → reachable (dispatch now req bs).1.

End Coercion.

(** ** Auxiliary notions for the statements *)

(** What the four assignments leave at [bookIndex]. *)
Definition updated (title' author' year' completed' : JsVal) (b : Book) : Book :=
  mkBook (id b)
         (if truthy title' then title' else title b)
         (if truthy author' then author' else author b)
         (if truthy year' then year' else year b)
         (match completed' with Some v => Some v | None => completed b end)
         (createdAt b).

(** The ids of the registry are unique and positive. *)
Definition ids_ok (bs : Registry) : Prop :=
  NoDup (ids bs) ∧ Forall (λ i, 0 < i) (ids bs).

(** ** Numerals

    The decimal digits and the number a string of them spells, to state what
    [parseInt] returns. *)

Definition is_digit (c : ascii) : bool := (48 <=? code c) && (code c <=? 57).

Fixpoint all_digits (s : string) : bool :=
  match s with
  | EmptyString => true
  | String c r => is_digit c && all_digits r
  end.

Fixpoint numeral (acc : Z) (s : string) : Z :=
  match s with
  | EmptyString => acc
  | String c r => numeral (acc * 10 + (code c - 48)) r
  end.

Definition decimal_value (ds : string) : Z := numeral 0 ds.

(** The first character of [s], if any, is no decimal digit. *)
Definition no_digit_ahead (s : string) : bool :=
  match s with
  | EmptyString => true
  | String c _ => negb (is_digit c)
  end.

(** [s] opens with [0x] or [0X], the prefix [parseInt] reads as radix 16. *)
Definition hex_prefixed (s : string) : bool :=
  starts_with "0x" s || starts_with "0X" s.

(** The first character of [s], if any, is an ASCII character that is
    neither a decimal digit, nor a sign, nor white space. *)
Definition no_number_ahead (s : string) : bool :=
  match s with
  | EmptyString => true
  | String c _ =>
      negb (is_digit c) && negb (is_ws c)
      && negb (Ascii.eqb c "+") && negb (Ascii.eqb c "-")
      && (code c <? 128)
  end.

(** An instance of the coercion for the examples: a string of decimal digits
    compares as the number it spells, every other operand as [NaN]. *)
Definition numeral_lt (n : Z) (j : Json) : option (option bool) :=
  match j with
  | JStr s =>
      if all_digits s
      then Some (Some (n <? decimal_value s))
      else Some None
  | _ => Some None
  end.

(** ** Notions for the properties of the handlers *)

(** Every character of [s] is white space that [parseInt] skips. *)
Fixpoint all_ws (s : string) : bool :=
  match s with
  | EmptyString => true
  | String c r => is_ws c && all_ws r
  end.

(** The ids grow along the registry. *)
Definition ids_increasing (bs : Registry) : Prop :=
  ∀ i j a b, (i < j)%nat → ids bs !! i = Some a → ids bs !! j = Some b → a < b.

(** What the create and update handlers let into a Book: truthy [title],
    [author] and [year], a [year] for which [year <= 1900] is false, and a
    [completed] that is not [undefined]. *)
Definition fields_ok (coerce_lt : Z → Json → option (option bool)) (b : Book)
  : Prop :=
  truthy (title b) = true ∧ truthy (author b) = true
  ∧ truthy (year b) = true ∧ js_le coerce_lt (year b) 1900 = Some false
  ∧ is_defined (completed b) = true.

(** The two fields no handler assigns after creation. *)
Definition stamp (b : Book) : Z * Z := (id b, createdAt b).

(** The title of [b] is a string. *)
Definition has_text_title (b : Book) : Prop := ∃ t, title b = Some (JStr t).

(** * Properties *)

(** ** A run

    From the initial registry: a create request is answered 201 with id 4;
    deleting Book 2 is answered 200; Book 2 is then not found; the list is
    Books 1, 3, 4 in that order. *)

Example create_delete_list :
  let payload := list_to_map [("title", JStr "X"); ("author", JStr "Y");
                              ("year", JNum 2000)] in
  let '(bs1, r1) := dispatch numeral_lt 0 (mkRequest POST ["books"] ∅ (Some payload)) books in
  let '(bs2, r2) := dispatch numeral_lt 0 (mkRequest DELETE ["books"; "2"] ∅ None) bs1 in
  let '(bs3, r3) := dispatch numeral_lt 0 (mkRequest GET ["books"; "2"] ∅ None) bs2 in
  let '(bs4, r4) := dispatch numeral_lt 0 (mkRequest GET ["books"] ∅ None) bs3 in
  (∃ b, r1 = Reply 201 (mkEnvelope true (Some (OneBook b)) None) ∧ id b = 4)
  ∧ r2 = Reply 200 (mkEnvelope true None (Some "Book deleted successfully"))
  ∧ r3 = not_found
  ∧ r4 = ok_books bs4
  ∧ ids bs4 = [1; 3; 4].
Proof. cbv zeta. vm_compute. split_and!; try reflexivity. by eexists. Qed.

(** ** Routing *)

Lemma param_id_singleton seg : param_id {["id" := seg]} = parseInt seg.
Proof. unfold param_id. by rewrite lookup_singleton_eq. Qed.

Lemma match_books_id seg :
  seg ≠ "" →
  match_path [Lit "books"; Param "id"] ["books"; seg] = Some {["id" := seg]}.
Proof.
  intros Hseg. apply String.eqb_neq in Hseg.
  cbn [match_path]. change (toLowerCase "books") with "books".
  rewrite String.eqb_refl, Hseg. reflexivity.
Qed.

Lemma find_book_NaN bs : find_book None bs = None.
Proof.
  unfold find_book. apply list_find_None, Forall_forall.
  intros b _ H. discriminate H.
Qed.

Section Routing.

Variable coerce_lt : Z → Json → option (option bool).
Variables (now : Z) (q : gmap string Json).
Variable reqBody : option (gmap string Json).

Lemma dispatch_get seg bs :
  seg ≠ "" →
  dispatch coerce_lt now (mkRequest GET ["books"; seg] q reqBody) bs
  = get_book {["id" := seg]} bs.
Proof.
  intros Hseg. unfold dispatch. cbn [route routes method path].
  rewrite match_books_id by done. reflexivity.
Qed.

Lemma dispatch_put seg bs :
  seg ≠ "" →
  dispatch coerce_lt now (mkRequest PUT ["books"; seg] q reqBody) bs
  = update_book coerce_lt {["id" := seg]} reqBody bs.
Proof.
  intros Hseg. unfold dispatch. cbn [route routes method path].
  rewrite match_books_id by done. reflexivity.
Qed.

Lemma dispatch_delete seg bs :
  seg ≠ "" →
  dispatch coerce_lt now (mkRequest DELETE ["books"; seg] q reqBody) bs
  = delete_book {["id" := seg]} bs.
Proof.
  intros Hseg. unfold dispatch. cbn [route routes method path].
  rewrite match_books_id by done. reflexivity.
Qed.

Lemma dispatch_post bs :
  dispatch coerce_lt now (mkRequest POST ["books"] q reqBody) bs
  = create_book coerce_lt now reqBody bs.
Proof. reflexivity. Qed.

End Routing.

(** ** Creating a Book *)

Lemma foldl_max_bounds (rest : list Z) (i : Z) :
  foldl Z.max i rest ∈ i :: rest ∧ ∀ j, j ∈ i :: rest → j ≤ foldl Z.max i rest.
Proof.
  revert i. induction rest as [|k rest IH]; intros i; cbn [foldl].
  - split; [left|]. intros j ->%list_elem_of_singleton. lia.
  - destruct (IH (Z.max i k)) as [Hin Hub]. split.
    + apply elem_of_cons in Hin as [Heq|Hin]; [|by do 2 right].
      rewrite Heq. destruct (Z.max_spec i k) as [[_ ->]|[_ ->]];
        [right; left|left].
    + intros j Hj. apply elem_of_cons in Hj as [->|Hj].
      * specialize (Hub (Z.max i k)). etrans; [apply Z.le_max_l|].
        apply Hub. left.
      * apply elem_of_cons in Hj as [->|Hj].
        -- etrans; [apply (Z.le_max_r i)|]. apply Hub. left.
        -- apply Hub. by right.
Qed.

(** The next id is one more than the maximum of the ids present. *)
Lemma newId_nonempty bs :
  bs ≠ [] →
  ∃ m, m ∈ ids bs ∧ (∀ i, i ∈ ids bs → i ≤ m) ∧ newId bs = m + 1.
Proof.
  intros Hne. unfold newId. destruct (ids bs) as [|i rest] eqn:E.
  - destruct bs; [done | discriminate E].
  - exists (foldl Z.max i rest).
    destruct (foldl_max_bounds rest i) as [Hin Hub]. auto.
Qed.

Lemma newId_empty : newId [] = 1.
Proof. reflexivity. Qed.

Lemma newId_fresh bs i : i ∈ ids bs → i < newId bs.
Proof.
  intros Hi. destruct bs as [|b bs]; [by apply elem_of_nil in Hi|].
  destruct (newId_nonempty (b :: bs)) as (m & _ & Hub & ->); [done|].
  specialize (Hub i Hi). lia.
Qed.

Section Create.

Variable coerce_lt : Z → Json → option (option bool).

(** [v > n] being true, [v <= n] is false: both read the same comparison. *)
Lemma js_gt_not_le v n :
  js_gt coerce_lt v n = Some true → js_le coerce_lt v n = Some false.
Proof.
  unfold js_gt, js_le. destruct (is_less_than coerce_lt n v) as [[r|]|];
    [|discriminate..]. by intros [= ->].
Qed.

Lemma create_book_accepts now payload bs :
  truthy (payload !! "title") = true →
  truthy (payload !! "author") = true →
  truthy (payload !! "year") = true →
  js_le coerce_lt (payload !! "year") 1900 = Some false →
  let newBook := mkBook (newId bs) (payload !! "title") (payload !! "author")
                        (payload !! "year") (Some (JBool false)) now in
  create_book coerce_lt now (Some payload) bs
  = (bs ++ [newBook], Reply 201 (mkEnvelope true (Some (OneBook newBook)) None)).
Proof.
  intros Ht Ha Hy Hle. unfold create_book. by rewrite Ht, Ha, Hy, Hle.
Qed.

End Create.

(** ** The literal routes, and the create handler *)

(** C1 (the code departs from it).  The claim: [GET /books/completed]
    answers 200 with the Books whose [completed] is exactly [true], served
    by the completed-list handler.  In the source the route [/books/:id] is
    registered before [/books/completed]; the router takes the first match,
    so for every registry the request is served by the get-by-id handler
    with the id [parseInt("completed")], which is [NaN], and the answer is
    404 "Book not found".  On the initial registry the completed-list
    handler, had it been reached, would have answered with Books 2 and 3. *)
Theorem completed_route_shadowed :
  (∀ coerce_lt now q payload bs,
      dispatch coerce_lt now (mkRequest GET ["books"; "completed"] q payload) bs
      = (bs, Reply 404 (mkEnvelope false None (Some "Book not found"))))
  ∧ (∃ b2 b3, id b2 = 2 ∧ id b3 = 3
       ∧ get_completed books
         = (books, Reply 200 (mkEnvelope true (Some (ManyBooks [b2; b3])) None))).
Proof.
  split.
  - intros. rewrite dispatch_get by done. unfold get_book.
    rewrite param_id_singleton.
    change (parseInt "completed") with (@None Z).
    by rewrite find_book_NaN.
  - do 2 eexists. split_and!; [| |reflexivity]; reflexivity.
Qed.

(** C2 (the code departs from it).  The claim: [GET /books/search] answers
    400 without a title and 200 with the matching Books otherwise, served by
    the search handler.  The route [/books/:id], registered earlier, takes
    the request for every registry and every query: the answer is 404 "Book
    not found", with a title ("clean" on the initial registry, where the
    search handler would have found "Clean Code") and without one (where it
    would have answered 400). *)
Theorem search_route_shadowed :
  (∀ coerce_lt now q payload bs,
      dispatch coerce_lt now (mkRequest GET ["books"; "search"] q payload) bs
      = (bs, Reply 404 (mkEnvelope false None (Some "Book not found"))))
  ∧ (∃ b2, title b2 = Some (JStr "Clean Code")
       ∧ search_books {["title" := JStr "clean"]} books
         = (books, Reply 200 (mkEnvelope true (Some (ManyBooks [b2])) None)))
  ∧ search_books ∅ books
    = (books, Reply 400 (mkEnvelope false None (Some "Title query parameter is required"))).
Proof.
  split_and!.
  - intros. rewrite dispatch_get by done. unfold get_book.
    rewrite param_id_singleton.
    change (parseInt "search") with (@None Z).
    by rewrite find_book_NaN.
  - eexists. split; [|vm_compute; reflexivity]. reflexivity.
  - reflexivity.
Qed.

(** C3.  A create request whose [title], [author] and [year] are truthy and
    whose [year > 1900] appends one Book at the end of the registry and
    answers 201 with it: its id is 1 on an empty registry and the maximum of
    the ids present plus one otherwise, [completed] is [false], [createdAt]
    the current time, the other fields those of the payload; every Book
    already present keeps its position. *)
Theorem create_appends_new_book coerce_lt now q payload bs :
  truthy (payload !! "title") = true →
  truthy (payload !! "author") = true →
  truthy (payload !! "year") = true →
  js_gt coerce_lt (payload !! "year") 1900 = Some true →
  ∃ newBook,
    dispatch coerce_lt now (mkRequest POST ["books"] q (Some payload)) bs
    = (bs ++ [newBook], Reply 201 (mkEnvelope true (Some (OneBook newBook)) None))
    ∧ (bs = [] → id newBook = 1)
    ∧ (bs ≠ [] →
       ∃ m, m ∈ ids bs ∧ (∀ i, i ∈ ids bs → i ≤ m) ∧ id newBook = m + 1)
    ∧ completed newBook = Some (JBool false)
    ∧ createdAt newBook = now
    ∧ title newBook = payload !! "title"
    ∧ author newBook = payload !! "author"
    ∧ year newBook = payload !! "year"
    ∧ (∀ i b, bs !! i = Some b → (bs ++ [newBook]) !! i = Some b)
    ∧ (bs ++ [newBook]) !! length bs = Some newBook.
Proof.
  intros Ht Ha Hy Hgt. apply js_gt_not_le in Hgt.
  eexists. split; [rewrite dispatch_post; by apply create_book_accepts|].
  cbn [id completed createdAt title author year]. split_and!; try done.
  - by intros ->.
  - apply newId_nonempty.
  - intros i b Hb. by apply lookup_app_l_Some.
  - by rewrite list_lookup_middle.
Qed.

Lemma create_appends_new_book_witness :
  ∃ newBook,
    dispatch numeral_lt 1767225600000
      (mkRequest POST ["books"] ∅
         (Some (list_to_map [("title", JStr "X"); ("author", JStr "Y"); ("year", JNum 2000)])))
      books
    = (books ++ [newBook], Reply 201 (mkEnvelope true (Some (OneBook newBook)) None))
    ∧ id newBook = 4 ∧ completed newBook = Some (JBool false)
    ∧ createdAt newBook = 1767225600000.
Proof.
  destruct (create_appends_new_book numeral_lt 1767225600000 ∅
              (list_to_map [("title", JStr "X"); ("author", JStr "Y"); ("year", JNum 2000)])
              books)
    as (newBook & Hrun & _ & Hid & Hc & Hat & _); [reflexivity..|].
  exists newBook. split_and!; [exact Hrun| |exact Hc|exact Hat].
  destruct Hid as (m & Hm & Hub & ->); [discriminate|].
  assert (3 ≤ m) by (apply Hub; vm_compute; do 2 right; left).
  assert (m ≤ 3).
  { vm_compute in Hm.
    repeat (apply elem_of_cons in Hm as [->|Hm]; [lia|]).
    by apply elem_of_nil in Hm. }
  lia.
Defined.




(** ** Updating a Book *)

Lemma cond_alter {A} (c : bool) (f : A → A) (l : list A) i x :
  l !! i = Some x →
  (if c then alter f i l else l) = <[i := if c then f x else x]> l.
Proof.
  intros Hx. destruct c; [|by rewrite list_insert_id].
  revert i Hx. induction l as [|y l IH]; intros [|i] Hx; simplify_eq/=;
    f_equal; auto.
Qed.

Lemma find_book_Some n bs i b :
  find_book n bs = Some (i, b) →
  bs !! i = Some b ∧ n = Some (id b)
  ∧ ∀ j y, bs !! j = Some y → (j < i)%nat → n ≠ Some (id y).
Proof. unfold find_book. by rewrite list_find_Some. Qed.

Lemma assign_fields_insert title' author' year' completed' i bs b :
  bs !! i = Some b →
  assign_fields title' author' year' completed' i bs
  = <[i := updated title' author' year' completed' b]> bs.
Proof.
  intros Hb. unfold assign_fields.
  assert (Hlt : (i < length bs)%nat) by by eapply lookup_lt_Some.
  rewrite (cond_alter _ _ bs i b) by done.
  erewrite (cond_alter (truthy author'));
    [|by apply list_lookup_insert_eq].
  rewrite list_insert_insert_eq.
  erewrite (cond_alter (truthy year'));
    [|by apply list_lookup_insert_eq].
  rewrite list_insert_insert_eq.
  erewrite (cond_alter (is_defined completed'));
    [|by apply list_lookup_insert_eq].
  rewrite list_insert_insert_eq. f_equal.
  unfold updated. destruct b as [i0 t0 a0 y0 c0 d0].
  destruct (truthy title'), (truthy author'), (truthy year'), completed';
    reflexivity.
Qed.

Section Update.

Variable coerce_lt : Z → Json → option (option bool).

Lemma update_book_accepts seg payload bs i b :
  find_book (parseInt seg) bs = Some (i, b) →
  year_rejected coerce_lt (payload !! "year") = Some false →
  let b' := updated (payload !! "title") (payload !! "author")
                    (payload !! "year") (payload !! "completed") b in
  update_book coerce_lt {["id" := seg]} (Some payload) bs
  = (<[i := b']> bs,
     Reply 200 (mkEnvelope true (Some (OneBook b'))
                           (Some "Book updated successfully"))).
Proof.
  intros Hfind Hyear b'. unfold update_book.
  rewrite param_id_singleton, Hfind, Hyear.
  apply find_book_Some in Hfind as (Hb & _).
  rewrite (assign_fields_insert _ _ _ _ i bs b) by done.
  rewrite list_lookup_insert_eq by by eapply lookup_lt_Some.
  reflexivity.
Qed.

Lemma update_book_rejects seg payload bs i b :
  find_book (parseInt seg) bs = Some (i, b) →
  year_rejected coerce_lt (payload !! "year") = Some true →
  update_book coerce_lt {["id" := seg]} (Some payload) bs
  = (bs, fail 400 "Year must be greater than 1900").
Proof.
  intros Hfind Hyear. unfold update_book.
  by rewrite param_id_singleton, Hfind, Hyear.
Qed.

End Update.

(** C5.  An update request on an existing Book: when the supplied [year] is
    truthy and [<= 1900] the answer is 400 "Year must be greater than 1900"
    and nothing is changed.  Otherwise [title], [author] and [year] are each
    overwritten exactly when the supplied value is truthy (an empty title or
    a year 0 leaves the stored field), [completed] exactly when the payload
    has it ([false] included), [id] and [createdAt] stay, and every other
    Book stays.  A payload of [completed: false] alone changes [completed]
    and nothing else. *)
Theorem update_overwrites_supplied_fields coerce_lt now q payload seg bs i b :
  seg ≠ "" →
  find_book (parseInt seg) bs = Some (i, b) →
  let req := mkRequest PUT ["books"; seg] q (Some payload) in
  let title' := payload !! "title" in
  let author' := payload !! "author" in
  let year' := payload !! "year" in
  let completed' := payload !! "completed" in
  (truthy year' = true → js_le coerce_lt year' 1900 = Some true →
   dispatch coerce_lt now req bs
   = (bs, Reply 400 (mkEnvelope false None
                       (Some "Year must be greater than 1900"))))
  ∧ (truthy year' = false ∨ js_le coerce_lt year' 1900 = Some false →
     ∃ b',
       dispatch coerce_lt now req bs
       = (<[i := b']> bs,
          Reply 200 (mkEnvelope true (Some (OneBook b'))
                                (Some "Book updated successfully")))
       ∧ id b' = id b ∧ createdAt b' = createdAt b
       ∧ title b' = (if truthy title' then title' else title b)
       ∧ author b' = (if truthy author' then author' else author b)
       ∧ year b' = (if truthy year' then year' else year b)
       ∧ completed b' = (match completed' with
                         | Some v => Some v
                         | None => completed b
                         end)
       ∧ ∀ j, j ≠ i → <[i := b']> bs !! j = bs !! j)
  ∧ (payload = {["completed" := JBool false]} →
     dispatch coerce_lt now req bs
     = (<[i := set_completed (Some (JBool false)) b]> bs,
        Reply 200 (mkEnvelope true
                     (Some (OneBook (set_completed (Some (JBool false)) b)))
                     (Some "Book updated successfully")))).
Proof.
  intros Hseg Hfind req title' author' year' completed'. subst req.
  rewrite dispatch_put by done. split_and!.
  - intros Hy Hle. apply (update_book_rejects _ _ _ _ i b); [done|].
    unfold year_rejected. fold year'. by rewrite Hy.
  - intros Hok.
    assert (year_rejected coerce_lt year' = Some false) as Hyear.
    { unfold year_rejected. destruct (truthy year'); [|done].
      by destruct Hok. }
    eexists. split; [by apply update_book_accepts|].
    cbn [updated id createdAt title author year completed].
    split_and!; try done.
    intros j Hj. by apply list_lookup_insert_ne.
  - intros ->.
    rewrite (update_book_accepts _ _ _ _ i b) by done.
    reflexivity.
Qed.

Lemma update_overwrites_supplied_fields_witness :
  dispatch numeral_lt 0
    (mkRequest PUT ["books"; "2"] ∅ (Some {["completed" := JBool false]})) books
  = (<[1%nat := set_completed (Some (JBool false))
                (mkBook 2 (Some (JStr "Clean Code")) (Some (JStr "Khine Akira"))
                        (Some (JNum 2008)) (Some (JBool true)) 1708387200000)]> books,
     Reply 200 (mkEnvelope true
       (Some (OneBook (set_completed (Some (JBool false))
                (mkBook 2 (Some (JStr "Clean Code")) (Some (JStr "Khine Akira"))
                        (Some (JNum 2008)) (Some (JBool true)) 1708387200000))))
       (Some "Book updated successfully"))).
Proof.
  apply (update_overwrites_supplied_fields numeral_lt 0 ∅
           {["completed" := JBool false]} "2" books 1%nat);
    [discriminate | reflexivity | reflexivity].
Defined.

(** ** Failures, deletion and the ids *)

Lemma route_method req h params :
  route routes req = Some (h, params) →
  (h = CreateBook → method req = POST)
  ∧ (h = UpdateBook → method req = PUT)
  ∧ (h = DeleteBook → method req = DELETE).
Proof.
  destruct req as [m p q b]. unfold routes. cbn [route method path].
  destruct m; repeat case_decide; try done;
    repeat (case_match; try done); naive_solver.
Qed.

Lemma ids_app bs b : ids (bs ++ [b]) = ids bs ++ [id b].
Proof. unfold ids. by rewrite fmap_app. Qed.

Lemma ids_delete i bs : ids (delete i bs) = delete i (ids bs).
Proof. apply list_fmap_delete. Qed.

Lemma ids_insert i b b' bs :
  bs !! i = Some b → id b' = id b → ids (<[i := b']> bs) = ids bs.
Proof.
  intros Hb Hid. unfold ids. rewrite list_fmap_insert, Hid.
  apply list_insert_id. by rewrite list_lookup_fmap, Hb.
Qed.

(** Splitting the registry at the Book that [find_book] returns. *)
Lemma find_book_split n bs i b :
  find_book n bs = Some (i, b) →
  ∃ pre post, bs = pre ++ b :: post ∧ delete i bs = pre ++ post
              ∧ length pre = i ∧ Forall (λ y, n ≠ Some (id y)) pre.
Proof.
  intros (Hb & Hn & Hfirst)%find_book_Some.
  exists (take i bs), (drop (S i) bs).
  assert (Hlt : (i < length bs)%nat) by by eapply lookup_lt_Some.
  split_and!.
  - by rewrite take_drop_middle.
  - apply delete_take_drop.
  - rewrite length_take. lia.
  - apply Forall_lookup. intros j y Hy.
    apply lookup_take_Some in Hy as [Hy Hj]. by eapply Hfirst.
Qed.

(** With unique ids the Book deleted is the only one with its id. *)
Lemma find_book_after_delete n bs i b :
  NoDup (ids bs) →
  find_book n bs = Some (i, b) →
  find_book n (delete i bs) = None.
Proof.
  intros Hnd Hfind.
  destruct (find_book_Some _ _ _ _ Hfind) as (_ & -> & _).
  destruct (find_book_split _ _ _ _ Hfind) as (pre & post & -> & -> & _ & _).
  unfold ids in Hnd. rewrite fmap_app, fmap_cons in Hnd.
  apply NoDup_app in Hnd as (_ & Hpre & Hpost).
  apply NoDup_cons in Hpost as [Hpost _].
  unfold find_book. apply list_find_None, Forall_forall. intros y Hy Hid.
  unfold id_is in Hid. injection Hid as Hid.
  apply elem_of_app in Hy as [Hy|Hy].
  - apply (Hpre (id y)); [by apply list_elem_of_fmap_2|]. rewrite Hid. left.
  - apply Hpost. rewrite Hid. by apply list_elem_of_fmap_2.
Qed.

Lemma ids_ok_books : ids_ok books.
Proof.
  split.
  - apply (bool_decide_unpack _). by vm_compute.
  - unfold books, ids. cbn. repeat (apply Forall_cons; split; [lia|]).
    apply Forall_nil_2.
Qed.

Lemma ids_ok_delete i bs : ids_ok bs → ids_ok (delete i bs).
Proof.
  intros [Hnd Hpos]. unfold ids_ok. rewrite ids_delete. split.
  - eapply sublist_NoDup; [done|apply sublist_delete].
  - rewrite Forall_forall in Hpos |- *. intros x Hx. apply Hpos.
    eapply elem_of_sublist; [done|apply sublist_delete].
Qed.

Lemma newId_positive bs : Forall (λ i, 0 < i) (ids bs) → 0 < newId bs.
Proof.
  intros Hpos. destruct bs as [|b bs]; [done|].
  destruct (newId_nonempty (b :: bs)) as (m & Hm & _ & ->); [done|].
  rewrite Forall_forall in Hpos. specialize (Hpos m Hm). lia.
Qed.

Lemma ids_ok_push bs b : id b = newId bs → ids_ok bs → ids_ok (bs ++ [b]).
Proof.
  intros Hid [Hnd Hpos]. unfold ids_ok. rewrite ids_app, Hid. split.
  - apply NoDup_app. split_and!; [done| |apply NoDup_singleton].
    intros i Hi ->%list_elem_of_singleton. apply newId_fresh in Hi. lia.
  - apply Forall_app. split; [done|].
    apply Forall_singleton. by apply newId_positive.
Qed.

Section Steps.

Variable coerce_lt : Z → Json → option (option bool).

(** What one request does to the registry: nothing to the ids, or a
    DELETE removes one position, or a POST appends a Book with the next
    id. *)
Lemma dispatch_shape now req bs :
  let bs' := (dispatch coerce_lt now req bs).1 in
  (length bs' = length bs ∧ ids bs' = ids bs)
  ∨ (method req = DELETE ∧ ∃ i b, bs !! i = Some b ∧ bs' = delete i bs)
  ∨ (method req = POST ∧ ∃ b, bs' = bs ++ [b] ∧ id b = newId bs).
Proof.
  unfold dispatch.
  destruct (route routes req) as [[h params]|] eqn:Hroute; [|by left].
  apply route_method in Hroute as (Hpost & Hput & Hdel).
  destruct h; cbn [run].
  - by left.
  - left. unfold get_book. by repeat case_match.
  - unfold create_book.
    repeat case_match; try by left.
    right; right. split; [by apply Hpost|]. by eexists.
  - left. unfold update_book.
    destruct (find_book _ bs) as [[i b]|] eqn:Hfind; [|done].
    destruct (body req) as [payload|]; [|done].
    destruct (year_rejected _ _) as [[|]|]; [done| |done].
    apply find_book_Some in Hfind as (Hb & _).
    rewrite (assign_fields_insert _ _ _ _ i bs b) by done. cbn [fst].
    split; [apply length_insert | by apply (ids_insert i b)].
  - unfold delete_book.
    destruct (find_book _ bs) as [[i b]|] eqn:Hfind; [|by left].
    right; left. split; [by apply Hdel|].
    apply find_book_Some in Hfind as (Hb & _). by exists i, b.
  - by left.
  - left. unfold search_books. by repeat case_match.
Qed.

Lemma dispatch_ids_ok now req bs :
  ids_ok bs → ids_ok (dispatch coerce_lt now req bs).1.
Proof.
  intros Hok.
  destruct (dispatch_shape now req bs)
    as [[_ Hsame]|[(_ & i & b & _ & ->)|(_ & b & -> & Hid)]].
  - unfold ids_ok. by rewrite Hsame.
  - by apply ids_ok_delete.
  - by apply ids_ok_push.
Qed.

Lemma reachable_ids_ok bs : reachable coerce_lt bs → ids_ok bs.
Proof.
  induction 1 as [|bs now req _ IH];
    [apply ids_ok_books | by apply dispatch_ids_ok].
Qed.

(** A response that is not a success envelope leaves the registry as it
    was. *)
Lemma dispatch_failure_frame now req bs :
  (∀ st e, (dispatch coerce_lt now req bs).2 = Reply st e → success e = false) →
  (dispatch coerce_lt now req bs).1 = bs.
Proof.
  unfold dispatch.
  destruct (route routes req) as [[h params]|]; [|done].
  destruct h; cbn [run]; try done.
  - unfold get_book. by repeat case_match.
  - unfold create_book. repeat case_match; try done.
    intros Hfail. by specialize (Hfail _ _ eq_refl).
  - unfold update_book. repeat case_match; try done.
    intros Hfail. by specialize (Hfail _ _ eq_refl).
  - unfold delete_book. repeat case_match; try done.
    intros Hfail. by specialize (Hfail _ _ eq_refl).
  - unfold search_books. by repeat case_match.
Qed.

End Steps.

Lemma dispatch_unknown_id coerce_lt now m seg q payload bs :
  m ≠ POST → seg ≠ "" → find_book (parseInt seg) bs = None →
  dispatch coerce_lt now (mkRequest m ["books"; seg] q payload) bs
  = (bs, not_found).
Proof.
  intros Hm Hseg Hnone. destruct m; [|done|..].
  - rewrite dispatch_get by done. unfold get_book.
    by rewrite param_id_singleton, Hnone.
  - rewrite dispatch_put by done. unfold update_book.
    by rewrite param_id_singleton, Hnone.
  - rewrite dispatch_delete by done. unfold delete_book.
    by rewrite param_id_singleton, Hnone.
Qed.

(** C6.  A get-by-id, update or delete request whose parsed id matches no
    Book answers 404 with exactly [{success: false, message: "Book not
    found"}]; and whenever a request is not answered with a success envelope
    (400, 404, no route, a throw) the registry is left as it was. *)
Theorem unknown_id_not_found_and_failures_change_nothing coerce_lt now :
  (∀ m seg q payload bs,
      m ≠ POST → seg ≠ "" → find_book (parseInt seg) bs = None →
      dispatch coerce_lt now (mkRequest m ["books"; seg] q payload) bs
      = (bs, Reply 404 (mkEnvelope false None (Some "Book not found"))))
  ∧ (∀ req bs,
        (∀ st e, (dispatch coerce_lt now req bs).2 = Reply st e → success e = false) →
        (dispatch coerce_lt now req bs).1 = bs).
Proof.
  split; [|apply dispatch_failure_frame].
  intros. by apply dispatch_unknown_id.
Qed.

Lemma unknown_id_not_found_and_failures_change_nothing_witness :
  dispatch numeral_lt 0 (mkRequest DELETE ["books"; "99"] ∅ None) books
  = (books, Reply 404 (mkEnvelope false None (Some "Book not found")))
  ∧ (dispatch numeral_lt 0
       (mkRequest PUT ["books"; "2"] ∅ (Some {["year" := JNum 1800]})) books).1
    = books.
Proof.
  split.
  - apply (unknown_id_not_found_and_failures_change_nothing numeral_lt 0);
      [discriminate | discriminate | reflexivity].
  - apply (unknown_id_not_found_and_failures_change_nothing numeral_lt 0).
    intros st e H. vm_compute in H. injection H as _ <-. reflexivity.
Defined.

(** C7.  A delete request whose id matches a Book removes exactly that Book
    (the first with the id), keeps the others in their order, lowers the
    count by one and answers 200 with a success message and no data; and, in
    every registry the process can hold, a get-by-id for that id then
    answers 404. *)
Theorem delete_removes_exactly_one coerce_lt now q payload seg bs i b :
  seg ≠ "" →
  find_book (parseInt seg) bs = Some (i, b) →
  let out := dispatch coerce_lt now (mkRequest DELETE ["books"; seg] q payload) bs in
  out.2 = Reply 200 (mkEnvelope true None (Some "Book deleted successfully"))
  ∧ (∃ pre post, bs = pre ++ b :: post ∧ out.1 = pre ++ post
                 ∧ length pre = i
                 ∧ Forall (λ y, parseInt seg ≠ Some (id y)) pre)
  ∧ length bs = S (length out.1)
  ∧ (reachable coerce_lt bs →
     ∀ now' q' payload',
       dispatch coerce_lt now' (mkRequest GET ["books"; seg] q' payload') out.1
       = (out.1, Reply 404 (mkEnvelope false None (Some "Book not found")))).
Proof.
  intros Hseg Hfind out. subst out. rewrite dispatch_delete by done.
  unfold delete_book. rewrite param_id_singleton, Hfind. cbn [fst snd].
  destruct (find_book_split _ _ _ _ Hfind) as (pre & post & Hbs & Hdel & Hi & Hpre).
  split_and!.
  - reflexivity.
  - by exists pre, post.
  - rewrite Hdel, Hbs, !length_app. cbn [length]. lia.
  - intros Hreach now' q' payload'. rewrite dispatch_get by done.
    unfold get_book. rewrite param_id_singleton.
    rewrite (find_book_after_delete _ _ _ b); [done| |done].
    by apply (reachable_ids_ok coerce_lt).
Qed.

Lemma delete_removes_exactly_one_witness :
  let out := dispatch numeral_lt 0 (mkRequest DELETE ["books"; "2"] ∅ None) books in
  ids out.1 = [1; 3]
  ∧ out.2 = Reply 200 (mkEnvelope true None (Some "Book deleted successfully"))
  ∧ dispatch numeral_lt 0 (mkRequest GET ["books"; "2"] ∅ None) out.1
    = (out.1, Reply 404 (mkEnvelope false None (Some "Book not found"))).
Proof.
  destruct (delete_removes_exactly_one numeral_lt 0 ∅ None "2" books 1%nat
              (mkBook 2 (Some (JStr "Clean Code")) (Some (JStr "Khine Akira"))
                      (Some (JNum 2008)) (Some (JBool true)) 1708387200000))
    as (Hresp & _ & _ & Hget); [discriminate | reflexivity |].
  split_and!; [reflexivity | exact Hresp |].
  apply Hget. apply reach_init.
Defined.

(** C8.  Starting from the three initial records, every registry the process
    can hold has unique and positive ids.  Only a create request adds a
    Book, and the id it assigns is the maximum of the ids then present plus
    one (1 on an empty registry), larger than every id present; an update
    changes no id and a delete only removes the id of the Book it
    removes. *)
Theorem ids_stay_unique_and_positive coerce_lt :
  (∀ bs, reachable coerce_lt bs →
         NoDup (ids bs) ∧ Forall (λ i, 0 < i) (ids bs))
  ∧ (∀ now req bs,
        let bs' := (dispatch coerce_lt now req bs).1 in
        (length bs < length bs')%nat →
        method req = POST ∧ ∃ b, bs' = bs ++ [b] ∧ id b = newId bs)
  ∧ newId [] = 1
  ∧ (∀ bs, bs ≠ [] →
           ∃ m, m ∈ ids bs ∧ (∀ i, i ∈ ids bs → i ≤ m) ∧ newId bs = m + 1)
  ∧ (∀ bs i, i ∈ ids bs → i ≠ newId bs)
  ∧ (∀ now req bs, method req = PUT →
                   ids (dispatch coerce_lt now req bs).1 = ids bs)
  ∧ (∀ now req bs, method req = DELETE →
        ids (dispatch coerce_lt now req bs).1 = ids bs
        ∨ ∃ i, ids (dispatch coerce_lt now req bs).1 = delete i (ids bs)).
Proof.
  split_and!.
  - apply reachable_ids_ok.
  - intros now req bs bs' Hlen. subst bs'.
    destruct (dispatch_shape coerce_lt now req bs)
      as [[Hsame _]|[(_ & i & b & Hb & Hdel)|Hpost]]; [lia| |done].
    rewrite Hdel, length_delete in Hlen by done. lia.
  - reflexivity.
  - apply newId_nonempty.
  - intros bs i Hi%newId_fresh. lia.
  - intros now req bs Hput.
    destruct (dispatch_shape coerce_lt now req bs)
      as [[_ Hsame]|[(Hm & _)|(Hm & _)]]; [done|congruence..].
  - intros now req bs Hdelete.
    destruct (dispatch_shape coerce_lt now req bs)
      as [[_ Hsame]|[(_ & i & b & _ & Hdel)|(Hm & _)]];
      [by left| |congruence].
    right. exists i. by rewrite Hdel, ids_delete.
Qed.

Lemma ids_stay_unique_and_positive_witness :
  let bs1 := (dispatch numeral_lt 0
                (mkRequest POST ["books"] ∅
                   (Some (list_to_map [("title", JStr "X"); ("author", JStr "Y");
                                 ("year", JNum 2000)]))) books).1 in
  let bs2 := (dispatch numeral_lt 0 (mkRequest DELETE ["books"; "2"] ∅ None) bs1).1 in
  ids bs2 = [1; 3; 4] ∧ NoDup (ids bs2) ∧ Forall (λ i, 0 < i) (ids bs2).
Proof.
  intros bs1 bs2. split; [reflexivity|].
  apply (ids_stay_unique_and_positive numeral_lt).
  subst bs2 bs1. do 2 apply reach_step. apply reach_init.
Defined.

(** ** The id segment *)

Ltac each_char c :=
  destruct c as [[] [] [] [] [] [] [] []].

Lemma digit_in_decimal c :
  digit_in 10 c = if is_digit c then Some (code c - 48) else None.
Proof.
  unfold digit_in, digit_val, is_digit. generalize (code c). intros n.
  repeat match goal with
         | |- context [?a <=? ?b] => destruct (Z.leb_spec a b)
         end; cbn [andb];
    try reflexivity; try lia;
    match goal with
    | |- context [?a <? ?b] => destruct (Z.ltb_spec a b)
    end; first [reflexivity | lia].
Qed.

Lemma read_digits_numeral ds acc rest :
  all_digits ds = true →
  no_digit_ahead rest = true →
  read_digits 10 acc (ds +:+ rest)
  = match ds with
    | EmptyString => acc
    | String _ _ => Some (numeral (default 0 acc) ds)
    end.
Proof.
  intros Hds Hrest. revert acc.
  induction ds as [|c ds IH]; intros acc.
  - change ("" +:+ rest) with rest.
    destruct rest as [|c r]; [done|]. cbn [read_digits].
    rewrite digit_in_decimal. cbn in Hrest.
    by destruct (is_digit c).
  - cbn [all_digits] in Hds. apply andb_prop in Hds as [Hc Hds].
    change (String c ds +:+ rest) with (String c (ds +:+ rest)).
    cbn [read_digits numeral]. rewrite digit_in_decimal, Hc, (IH Hds).
    by destruct ds.
Qed.

Lemma skip_ws_keeps c r : is_ws c = false → skip_ws (String c r) = String c r.
Proof. intros H. cbn [skip_ws]. by rewrite H. Qed.

Lemma strip_sign_unsigned c r :
  Ascii.eqb c "+" = false → Ascii.eqb c "-" = false →
  strip_sign (String c r) = (1, String c r).
Proof. each_char c; intros H1 H2; try reflexivity; discriminate. Qed.

Lemma strip_radix_decimal s : hex_prefixed s = false → strip_radix s = (10, s).
Proof.
  unfold hex_prefixed. destruct s as [|c [|d r]]; [done| |].
  - intros _. each_char c; reflexivity.
  - each_char c; try reflexivity.
    each_char d; try reflexivity; discriminate.
Qed.

Lemma digit_is_plain c :
  is_digit c = true →
  is_ws c = false ∧ Ascii.eqb c "+" = false ∧ Ascii.eqb c "-" = false
  ∧ Ascii.eqb "x" c = false ∧ Ascii.eqb "X" c = false.
Proof. each_char c; intros H; try discriminate H; done. Qed.

Lemma digits_not_hex_prefixed ds : all_digits ds = true → hex_prefixed ds = false.
Proof.
  unfold hex_prefixed. destruct ds as [|c [|d r]]; [done| |].
  - intros _. cbn. by rewrite !andb_false_r.
  - cbn [all_digits]. intros (_ & (Hd & _)%andb_prop)%andb_prop.
    apply digit_is_plain in Hd as (_ & _ & _ & Hx & HX).
    cbn [starts_with]. by rewrite Hx, HX, !andb_false_r.
Qed.

Lemma append_empty_r s : s +:+ "" = s.
Proof.
  induction s as [|c s IH]; [done|].
  change (String c s +:+ "") with (String c (s +:+ "")). by rewrite IH.
Qed.

Lemma parseInt_prefix ds rest :
  ds ≠ "" → all_digits ds = true → no_digit_ahead rest = true →
  hex_prefixed (ds +:+ rest) = false →
  parseInt (ds +:+ rest) = Some (decimal_value ds).
Proof.
  intros Hne Hds Hrest Hhex. unfold parseInt.
  destruct ds as [|c ds]; [done|].
  pose proof Hds as Hc. cbn [all_digits] in Hc.
  apply andb_prop in Hc as [Hc _].
  apply digit_is_plain in Hc as (Hws & Hplus & Hminus & _).
  change (String c ds +:+ rest) with (String c (ds +:+ rest)) in *.
  rewrite skip_ws_keeps, strip_sign_unsigned, strip_radix_decimal by done.
  change (String c (ds +:+ rest)) with (String c ds +:+ rest).
  rewrite read_digits_numeral by done.
  unfold decimal_value. cbn [default]. f_equal. lia.
Qed.

Lemma parseInt_NaN seg : no_number_ahead seg = true → parseInt seg = None.
Proof.
  destruct seg as [|c r]; [done|]. cbn [no_number_ahead].
  intros ((((Hd & Hws)%andb_prop & Hplus)%andb_prop & Hminus)%andb_prop
            & _)%andb_prop.
  apply negb_true_iff in Hd, Hws, Hplus, Hminus.
  unfold parseInt.
  rewrite skip_ws_keeps, strip_sign_unsigned by done.
  assert (strip_radix (String c r) = (10, String c r)) as ->.
  { revert Hd. each_char c; intros Hd; try reflexivity; discriminate Hd. }
  cbn [read_digits]. by rewrite digit_in_decimal, Hd.
Qed.

Lemma dispatch_by_parsed_id coerce_lt now m q payload s1 s2 bs :
  m ≠ POST → s1 ≠ "" → s2 ≠ "" → parseInt s1 = parseInt s2 →
  dispatch coerce_lt now (mkRequest m ["books"; s1] q payload) bs
  = dispatch coerce_lt now (mkRequest m ["books"; s2] q payload) bs.
Proof.
  intros Hm H1 H2 Heq. destruct m; [|done|..].
  - rewrite !dispatch_get by done. unfold get_book.
    by rewrite !param_id_singleton, Heq.
  - rewrite !dispatch_put by done. unfold update_book.
    by rewrite !param_id_singleton, Heq.
  - rewrite !dispatch_delete by done. unfold delete_book.
    by rewrite !param_id_singleton, Heq.
Qed.

(** C9 as stated fails: the segment [0x2] is the digit 0 followed by
    characters that do not start with a digit, its numeric prefix is 0, but
    [parseInt] reads the [0x] as a radix prefix and returns 2, so that
    [GET /books/0x2] answers with Book 2; the segment [0x] starts with a
    digit and parses to [NaN]; and [+2], which starts with no digit, parses
    to 2. *)
Lemma hex_prefix_is_not_a_numeric_prefix :
  all_digits "0" = true ∧ no_digit_ahead "x2" = true
  ∧ parseInt ("0" +:+ "x2") = Some 2
  ∧ parseInt ("0" +:+ "x2") ≠ Some (decimal_value "0")
  ∧ (∃ b, id b = 2
          ∧ dispatch numeral_lt 0 (mkRequest GET ["books"; "0x2"] ∅ None) books
            = (books, Reply 200 (mkEnvelope true (Some (OneBook b)) None)))
  ∧ parseInt "0x" = None
  ∧ parseInt "+2" = Some 2.
Proof.
  split_and!; try reflexivity; [discriminate|].
  eexists. split; [|reflexivity]. reflexivity.
Qed.

(** C9, amended.  The id segment of get-by-id, update and delete is parsed
    with [parseInt]: a segment made of decimal digits followed by characters
    that start with no digit, and that does not open with [0x] or [0X]
    (which [parseInt] reads as the prefix of a hexadecimal numeral), is
    treated as the id its numeric prefix spells, the request doing what it
    does for the prefix alone; a segment whose first character is an ASCII
    character other than a digit, a sign or white space parses to [NaN] and
    matches no Book. *)
Theorem parseInt_reads_numeric_prefix :
  (∀ ds rest,
      ds ≠ "" → all_digits ds = true → no_digit_ahead rest = true →
      hex_prefixed (ds +:+ rest) = false →
      parseInt (ds +:+ rest) = Some (decimal_value ds)
      ∧ parseInt ds = Some (decimal_value ds)
      ∧ ∀ coerce_lt now m q payload bs,
          m ≠ POST →
          dispatch coerce_lt now (mkRequest m ["books"; ds +:+ rest] q payload) bs
          = dispatch coerce_lt now (mkRequest m ["books"; ds] q payload) bs)
  ∧ (∀ seg,
        seg ≠ "" → no_number_ahead seg = true →
        parseInt seg = None
        ∧ ∀ coerce_lt now m q payload bs,
            m ≠ POST →
            dispatch coerce_lt now (mkRequest m ["books"; seg] q payload) bs
            = (bs, Reply 404 (mkEnvelope false None (Some "Book not found")))).
Proof.
  split.
  - intros ds rest Hne Hds Hrest Hhex.
    assert (parseInt (ds +:+ rest) = Some (decimal_value ds)) as Hfull
        by by apply parseInt_prefix.
    assert (parseInt ds = Some (decimal_value ds)) as Hprefix.
    { rewrite <- (append_empty_r ds) at 1.
      apply parseInt_prefix; try done.
      rewrite append_empty_r. by apply digits_not_hex_prefixed. }
    split_and!; [done..|].
    intros coerce_lt now m q payload bs Hm.
    apply dispatch_by_parsed_id; try done; [|congruence].
    destruct ds; [done|discriminate].
  - intros seg Hne Hnan. apply parseInt_NaN in Hnan. split; [done|].
    intros coerce_lt now m q payload bs Hm.
    apply dispatch_unknown_id; try done.
    rewrite Hnan. apply find_book_NaN.
Qed.

Lemma parseInt_reads_numeric_prefix_witness :
  parseInt "12abc" = Some 12
  ∧ dispatch numeral_lt 0 (mkRequest DELETE ["books"; "2abc"] ∅ None) books
    = dispatch numeral_lt 0 (mkRequest DELETE ["books"; "2"] ∅ None) books
  ∧ parseInt "abc" = None.
Proof.
  destruct parseInt_reads_numeric_prefix as [Hprefix Hnan].
  split_and!.
  - apply (Hprefix "12" "abc"); [discriminate | reflexivity..].
  - apply (Hprefix "2" "abc"); [discriminate | reflexivity.. | discriminate].
  - apply (Hnan "abc"); [discriminate | reflexivity].
Defined.

(** C10.  The update handler stores whatever value the payload gives for
    [completed], of any type, into the Book: the registry can then hold a
    Book whose [completed] is no boolean; and a Book whose stored value is
    not [true] itself, truthy or not, is absent from the list that the
    completed-list handler builds with [=== true]. *)
Theorem update_stores_completed_verbatim coerce_lt now q payload seg bs i b v :
  seg ≠ "" →
  find_book (parseInt seg) bs = Some (i, b) →
  payload !! "completed" = Some v →
  truthy (payload !! "year") = false
  ∨ js_le coerce_lt (payload !! "year") 1900 = Some false →
  let bs' := (dispatch coerce_lt now (mkRequest PUT ["books"; seg] q (Some payload)) bs).1 in
  ∃ b' l,
    bs' !! i = Some b' ∧ id b' = id b ∧ completed b' = Some v
    ∧ get_completed bs'
      = (bs', Reply 200 (mkEnvelope true (Some (ManyBooks l)) None))
    ∧ (v ≠ JBool true → b' ∉ l).
Proof.
  intros Hseg Hfind Hv Hyear bs'. subst bs'.
  rewrite dispatch_put by done.
  assert (year_rejected coerce_lt (payload !! "year") = Some false) as Hok.
  { unfold year_rejected. destruct (truthy (payload !! "year")); [|done].
    by destruct Hyear. }
  rewrite (update_book_accepts _ _ _ _ i b) by done. cbn [fst].
  do 2 eexists. split_and!.
  - apply list_lookup_insert_eq.
    apply find_book_Some in Hfind as (Hb & _). by eapply lookup_lt_Some.
  - reflexivity.
  - cbn [updated completed]. by rewrite Hv.
  - reflexivity.
  - intros Hne Hin. apply list_elem_of_In, filter_In in Hin as [_ Hstrict].
    cbn [updated completed] in Hstrict. rewrite Hv in Hstrict.
    destruct v as [|[|]| | | |]; done.
Qed.

Lemma update_stores_completed_verbatim_witness :
  let bs' := (dispatch numeral_lt 0
                (mkRequest PUT ["books"; "1"] ∅ (Some {["completed" := JStr "yes"]}))
                books).1 in
  ∃ b' l,
    bs' !! 0%nat = Some b' ∧ completed b' = Some (JStr "yes")
    ∧ truthy (completed b') = true
    ∧ get_completed bs'
      = (bs', Reply 200 (mkEnvelope true (Some (ManyBooks l)) None))
    ∧ b' ∉ l.
Proof.
  intros bs'.
  destruct (update_stores_completed_verbatim numeral_lt 0 ∅
              {["completed" := JStr "yes"]} "1" books 0%nat
              (mkBook 1 (Some (JStr "The Begining After The End"))
                      (Some (JStr "James Vladimir")) (Some (JNum 2018))
                      (Some (JBool false)) 1736899200000) (JStr "yes"))
    as (b' & l & Hb & _ & Hc & Hl & Hout);
    [discriminate | reflexivity | reflexivity | by left |].
  exists b', l. split_and!; [exact Hb | exact Hc | by rewrite Hc | exact Hl |].
  apply Hout. discriminate.
Defined.

(** * Further properties of the handlers *)

(** ** Which handler serves a request *)

Lemma lower_nonempty x s : s ≠ "" → toLowerCase x = s → String.eqb x "" = false.
Proof. intros Hs Hx. apply String.eqb_neq. intros ->. by apply Hs. Qed.

(** No request reaches the handlers registered for [/books/completed] and
    [/books/search]: whatever the method and the path, the route found, if
    any, is one of the five registered before them. *)
Theorem literal_routes_never_served req :
  route routes req = None
  ∨ ∃ h params,
      route routes req = Some (h, params)
      ∧ (h = GetBooks ∨ h = GetBook ∨ h = CreateBook ∨ h = UpdateBook
         ∨ h = DeleteBook).
Proof.
  destruct req as [m p q b]. unfold routes. cbn [route method path].
  destruct m; repeat case_decide; try done.
  - destruct (match_path [Lit "books"] p) eqn:E1; [right; eauto 10|].
    destruct (match_path [Lit "books"; Param "id"] p) eqn:E2; [right; eauto 10|].
    destruct p as [|x [|y [|z p]]]; cbn [match_path] in *; try by left.
    + destruct (String.eqb _ (toLowerCase x)); [done|by left].
    + destruct (String.eqb _ (toLowerCase x)); [|by left].
      destruct (String.eqb (toLowerCase "completed") (toLowerCase y)) eqn:Ec.
      { apply String.eqb_eq in Ec. symmetry in Ec.
        apply lower_nonempty in Ec; [|done]. by rewrite Ec in E2. }
      destruct (String.eqb (toLowerCase "search") (toLowerCase y)) eqn:Es;
        [|by left].
      apply String.eqb_eq in Es. symmetry in Es.
      apply lower_nonempty in Es; [|done]. by rewrite Es in E2.
    + destruct (String.eqb _ (toLowerCase x)); [|by left].
      repeat case_match; by left.
  - destruct (match_path [Lit "books"] p); [right; eauto 10|by left].
  - destruct (match_path [Lit "books"; Param "id"] p); [right; eauto 10|by left].
  - destruct (match_path [Lit "books"; Param "id"] p); [right; eauto 10|by left].
Qed.

Lemma route_get_reads req h params :
  method req = GET → route routes req = Some (h, params) →
  h ≠ CreateBook ∧ h ≠ UpdateBook ∧ h ≠ DeleteBook.
Proof.
  intros Hget Hroute. apply route_method in Hroute as (Hpost & Hput & Hdel).
  split_and!; intros ->; [specialize (Hpost eq_refl) | specialize (Hput eq_refl)
                         | specialize (Hdel eq_refl)]; congruence.
Qed.

(** A GET request, whatever its path, leaves the registry as it was. *)
Theorem get_requests_change_nothing coerce_lt now req bs :
  method req = GET → (dispatch coerce_lt now req bs).1 = bs.
Proof.
  intros Hget. unfold dispatch.
  destruct (route routes req) as [[h params]|] eqn:Hroute; [|done].
  apply (route_get_reads _ _ _ Hget) in Hroute as (Hc & Hu & Hd).
  destruct h; try done; cbn [run].
  - unfold get_book. by repeat case_match.
  - unfold search_books. by repeat case_match.
Qed.

Lemma get_requests_change_nothing_witness :
  (dispatch numeral_lt 0 (mkRequest GET ["books"; "2"] ∅ None) books).1 = books
  ∧ (dispatch numeral_lt 0 (mkRequest GET ["authors"] ∅ None) books).1 = books.
Proof.
  split; apply get_requests_change_nothing; reflexivity.
Defined.

(** ** Looking a Book up *)

Lemma find_book_present n bs :
  n ∈ ids bs →
  ∃ i b, find_book (Some n) bs = Some (i, b) ∧ id b = n.
Proof.
  intros (b & -> & Hb)%list_elem_of_fmap.
  destruct (list_find_elem_of (id_is (Some (id b))) bs b) as [[i y] Hfind];
    [done|reflexivity|].
  exists i, y. split; [done|].
  apply find_book_Some in Hfind as (_ & Hid & _). congruence.
Qed.

Lemma unique_id_unique_book bs b y :
  NoDup (ids bs) → b ∈ bs → y ∈ bs → id y = id b → y = b.
Proof.
  intros Hnd (i & Hi)%list_elem_of_lookup (j & Hj)%list_elem_of_lookup Hid.
  assert (i = j) as ->; [|congruence].
  apply (NoDup_lookup (ids bs) i j (id b)); [done|..]; unfold ids;
    rewrite list_lookup_fmap; [by rewrite Hi|rewrite Hj; cbn; by rewrite Hid].
Qed.

(** When some Book has the parsed id, get-by-id answers 200 with a Book of
    the registry that has this id, the first in registry order; with unique
    ids it is the only one. *)
Theorem get_book_finds_present_id coerce_lt now q payload seg n bs :
  seg ≠ "" → parseInt seg = Some n → n ∈ ids bs →
  ∃ i b,
    dispatch coerce_lt now (mkRequest GET ["books"; seg] q payload) bs
    = (bs, Reply 200 (mkEnvelope true (Some (OneBook b)) None))
    ∧ bs !! i = Some b ∧ id b = n
    ∧ (∀ j y, bs !! j = Some y → id y = n → (i ≤ j)%nat)
    ∧ (NoDup (ids bs) → ∀ y, y ∈ bs → id y = n → y = b).
Proof.
  intros Hseg Hparse Hin.
  destruct (find_book_present n bs Hin) as (i & b & Hfind & Hid).
  exists i, b. rewrite dispatch_get by done. unfold get_book.
  rewrite param_id_singleton, Hparse, Hfind.
  apply find_book_Some in Hfind as (Hb & _ & Hfirst).
  split_and!; try done.
  - intros j y Hy Hyn. destruct (decide (j < i)%nat) as [Hlt|]; [|lia].
    destruct (Hfirst j y Hy Hlt). congruence.
  - intros Hnd y Hy Hyn. apply (unique_id_unique_book bs); try done.
    + by eapply list_elem_of_lookup_2.
    + congruence.
Qed.

Lemma get_book_finds_present_id_witness :
  ∃ b, dispatch numeral_lt 0 (mkRequest GET ["books"; "3"] ∅ None) books
       = (books, Reply 200 (mkEnvelope true (Some (OneBook b)) None))
       ∧ id b = 3.
Proof.
  destruct (get_book_finds_present_id numeral_lt 0 ∅ None "3" 3 books)
    as (i & b & Hget & _ & Hid & _);
    [discriminate | reflexivity | |].
  - unfold ids, books. cbn. do 2 right. left.
  - by exists b.
Defined.

(** ** How the handlers compose *)

Lemma find_book_pushed bs nb :
  id nb = newId bs →
  find_book (Some (newId bs)) (bs ++ [nb]) = Some (length bs, nb).
Proof.
  intros Hid. unfold find_book. apply list_find_Some. split_and!.
  - by rewrite list_lookup_middle.
  - unfold id_is. by rewrite Hid.
  - intros j y Hy Hj Hmatch. rewrite lookup_app_l in Hy by done.
    assert (id y < newId bs); [|unfold id_is in Hmatch; injection Hmatch; lia].
    apply newId_fresh. apply list_elem_of_fmap_2.
    by eapply list_elem_of_lookup_2.
Qed.

Lemma find_book_push_other n bs nb :
  n ≠ Some (id nb) → find_book n (bs ++ [nb]) = find_book n bs.
Proof.
  intros Hne. unfold find_book.
  destruct (list_find (id_is n) bs) as [[i b]|] eqn:Hfind.
  - by apply list_find_app_l.
  - rewrite list_find_app_r by done. cbn. by case_decide.
Qed.

Lemma find_book_insert_same n bs i b b' :
  find_book n bs = Some (i, b) → id b' = id b →
  find_book n (<[i := b']> bs) = Some (i, b').
Proof.
  intros (Hb & Hn & Hfirst)%find_book_Some Hid.
  unfold find_book. apply list_find_Some. split_and!.
  - apply list_lookup_insert_eq. by eapply lookup_lt_Some.
  - unfold id_is. by rewrite Hid.
  - intros j y Hy Hj. rewrite list_lookup_insert_ne in Hy by lia.
    by eapply Hfirst.
Qed.

Lemma find_book_insert_other n bs i b b' :
  bs !! i = Some b → id b' = id b → n ≠ Some (id b) →
  find_book n (<[i := b']> bs) = find_book n bs.
Proof.
  unfold find_book. revert i.
  induction bs as [|x bs IH]; intros [|i] Hb Hid Hne; simplify_eq/=.
  - rewrite !decide_False; [done|done|]. unfold id_is. by rewrite Hid.
  - case_decide; [done|]. by rewrite (IH i).
Qed.

Lemma find_book_delete_other n bs i b :
  bs !! i = Some b → n ≠ Some (id b) →
  snd <$> find_book n (delete i bs) = snd <$> find_book n bs.
Proof.
  unfold find_book. revert i.
  induction bs as [|x bs IH]; intros [|i] Hb Hne; simplify_eq/=.
  - rewrite decide_False by done.
    by destruct (list_find (id_is n) bs) as [[??]|].
  - case_decide; [done|]. specialize (IH i Hb Hne).
    destruct (list_find (id_is n) (delete i bs)) as [[??]|],
             (list_find (id_is n) bs) as [[??]|]; simplify_eq/=; done.
Qed.

(** The answer of get-by-id is decided by the Book found. *)
Lemma get_book_response params bs :
  (get_book params bs).2
  = match snd <$> find_book (param_id params) bs with
    | Some b => Reply 200 (mkEnvelope true (Some (OneBook b)) None)
    | None => not_found
    end.
Proof. unfold get_book. by destruct (find_book _ bs) as [[??]|]. Qed.

Lemma get_book_frame params bs : (get_book params bs).1 = bs.
Proof. unfold get_book. by destruct (find_book _ bs) as [[??]|]. Qed.

Lemma updated_twice t a y c b :
  updated t a y c (updated t a y c b) = updated t a y c b.
Proof.
  unfold updated. cbn [id title author year completed createdAt].
  by destruct (truthy t), (truthy a), (truthy y), c.
Qed.

(** A Book just created is found under its id, by a segment that parses to
    it, and the other ids are looked up as before the creation. *)
Theorem created_book_is_found coerce_lt now now' q q' payload payload' seg bs :
  truthy (payload !! "title") = true →
  truthy (payload !! "author") = true →
  truthy (payload !! "year") = true →
  js_le coerce_lt (payload !! "year") 1900 = Some false →
  seg ≠ "" → parseInt seg = Some (newId bs) →
  let bs' := (dispatch coerce_lt now (mkRequest POST ["books"] q (Some payload)) bs).1 in
  ∃ newBook,
    bs' = bs ++ [newBook]
    ∧ dispatch coerce_lt now' (mkRequest GET ["books"; seg] q' payload') bs'
      = (bs', Reply 200 (mkEnvelope true (Some (OneBook newBook)) None))
    ∧ ∀ other,
        other ≠ "" → parseInt other ≠ Some (newId bs) →
        (dispatch coerce_lt now' (mkRequest GET ["books"; other] q' payload') bs').2
        = (dispatch coerce_lt now' (mkRequest GET ["books"; other] q' payload') bs).2.
Proof.
  intros Ht Ha Hy Hle Hseg Hparse bs'. subst bs'.
  rewrite dispatch_post, create_book_accepts by done. cbn [fst].
  eexists. split; [reflexivity|]. split.
  - rewrite dispatch_get by done. unfold get_book.
    rewrite param_id_singleton, Hparse, find_book_pushed; done.
  - intros other Hother Hne. rewrite !dispatch_get by done.
    rewrite !get_book_response, !param_id_singleton.
    by rewrite find_book_push_other.
Qed.

Lemma created_book_is_found_witness :
  let payload := list_to_map [("title", JStr "X"); ("author", JStr "Y");
                              ("year", JNum 2000)] in
  let bs' := (dispatch numeral_lt 5 (mkRequest POST ["books"] ∅ (Some payload)) books).1 in
  ∃ newBook,
    bs' = books ++ [newBook]
    ∧ dispatch numeral_lt 6 (mkRequest GET ["books"; "4"] ∅ None) bs'
      = (bs', Reply 200 (mkEnvelope true (Some (OneBook newBook)) None)).
Proof.
  intros payload bs'.
  destruct (created_book_is_found numeral_lt 5 6 ∅ ∅ payload None "4" books)
    as (nb & Hbs & Hget & _); [reflexivity.. | discriminate | reflexivity |].
  by exists nb.
Defined.

(** Deleting the Book just created restores the registry: the next create
    request is then given the same id again. *)
Theorem create_then_delete_restores coerce_lt now now' q q' payload payload' seg bs :
  truthy (payload !! "title") = true →
  truthy (payload !! "author") = true →
  truthy (payload !! "year") = true →
  js_le coerce_lt (payload !! "year") 1900 = Some false →
  seg ≠ "" → parseInt seg = Some (newId bs) →
  let bs' := (dispatch coerce_lt now (mkRequest POST ["books"] q (Some payload)) bs).1 in
  dispatch coerce_lt now' (mkRequest DELETE ["books"; seg] q' payload') bs'
  = (bs, Reply 200 (mkEnvelope true None (Some "Book deleted successfully")))
  ∧ bs' ≠ bs.
Proof.
  intros Ht Ha Hy Hle Hseg Hparse bs'. subst bs'.
  rewrite dispatch_post, create_book_accepts by done. cbn [fst]. split.
  - rewrite dispatch_delete by done. unfold delete_book.
    rewrite param_id_singleton, Hparse, find_book_pushed by done.
    by rewrite (delete_middle bs []), app_nil_r.
  - intros Heq. apply (f_equal length) in Heq.
    rewrite length_app in Heq. cbn in Heq. lia.
Qed.

Lemma create_then_delete_restores_witness :
  let payload := list_to_map [("title", JStr "X"); ("author", JStr "Y");
                              ("year", JNum 2000)] in
  let bs' := (dispatch numeral_lt 5 (mkRequest POST ["books"] ∅ (Some payload)) books).1 in
  dispatch numeral_lt 6 (mkRequest DELETE ["books"; "4"] ∅ None) bs'
  = (books, Reply 200 (mkEnvelope true None (Some "Book deleted successfully"))).
Proof.
  intros payload bs'.
  apply (create_then_delete_restores numeral_lt 5 6 ∅ ∅ payload None "4" books);
    [reflexivity.. | discriminate | reflexivity].
Defined.

(** An update request served twice leaves the registry, and gives the
    answer, of serving it once: whether it is accepted, refused or finds no
    Book. *)
Theorem update_twice_is_update_once coerce_lt now now' q q' reqBody seg bs :
  dispatch coerce_lt now' (mkRequest PUT ["books"; seg] q' reqBody)
    (dispatch coerce_lt now (mkRequest PUT ["books"; seg] q reqBody) bs).1
  = dispatch coerce_lt now (mkRequest PUT ["books"; seg] q reqBody) bs.
Proof.
  destruct (decide (seg = "")) as [->|Hseg]; [reflexivity|].
  rewrite !dispatch_put by done.
  destruct (find_book (parseInt seg) bs) as [[i b]|] eqn:Hfind.
  - destruct reqBody as [payload|];
      [|unfold update_book; rewrite param_id_singleton, Hfind; cbn [fst];
        by rewrite Hfind].
    destruct (year_rejected coerce_lt (payload !! "year")) as [[|]|] eqn:Hyear.
    + rewrite (update_book_rejects coerce_lt seg payload bs i b) by done.
      cbn [fst]. by apply (update_book_rejects _ _ _ _ i b).
    + rewrite (update_book_accepts coerce_lt seg payload bs i b) by done.
      cbn [fst]. erewrite update_book_accepts;
        [|by apply (find_book_insert_same _ _ _ b)|done].
      by rewrite list_insert_insert_eq, updated_twice.
    + unfold update_book. rewrite param_id_singleton, Hfind, Hyear.
      cbn [fst]. by rewrite ?Hfind, ?Hyear.
  - unfold update_book. rewrite param_id_singleton, Hfind. cbn [fst].
    by rewrite Hfind.
Qed.

Section Frames.

Variable coerce_lt : Z → Json → option (option bool).
Variables (now now' : Z) (q q' payload : gmap string Json).
Variables (reqBody payload' : option (gmap string Json)).

(** After an accepted update, get-by-id on the same segment answers with the
    Book the update answered with, and get-by-id on any other id answers as
    before the update. *)
Theorem update_is_read_back seg bs i b :
  seg ≠ "" →
  find_book (parseInt seg) bs = Some (i, b) →
  truthy (payload !! "year") = false
  ∨ js_le coerce_lt (payload !! "year") 1900 = Some false →
  let out := dispatch coerce_lt now (mkRequest PUT ["books"; seg] q (Some payload)) bs in
  ∃ b',
    out.2 = Reply 200 (mkEnvelope true (Some (OneBook b'))
                                  (Some "Book updated successfully"))
    ∧ dispatch coerce_lt now' (mkRequest GET ["books"; seg] q' payload') out.1
      = (out.1, Reply 200 (mkEnvelope true (Some (OneBook b')) None))
    ∧ ∀ other,
        other ≠ "" → parseInt other ≠ parseInt seg →
        (dispatch coerce_lt now' (mkRequest GET ["books"; other] q' payload') out.1).2
        = (dispatch coerce_lt now' (mkRequest GET ["books"; other] q' payload') bs).2.
Proof.
  intros Hseg Hfind Hyear out. subst out. rewrite dispatch_put by done.
  assert (year_rejected coerce_lt (payload !! "year") = Some false) as Hok.
  { unfold year_rejected. destruct (truthy (payload !! "year")); [|done].
    by destruct Hyear. }
  rewrite (update_book_accepts _ _ _ _ i b) by done. cbn [fst snd].
  eexists. split; [reflexivity|]. split.
  - rewrite dispatch_get by done. unfold get_book.
    rewrite param_id_singleton.
    by rewrite (find_book_insert_same _ _ _ b).
  - intros other Hother Hne. rewrite !dispatch_get by done.
    rewrite !get_book_response, !param_id_singleton.
    destruct (find_book_Some _ _ _ _ Hfind) as (Hb & Hn & _).
    rewrite (find_book_insert_other _ _ _ b); [done..|congruence].
Qed.

(** Deleting a Book does not change what get-by-id answers for any other
    id. *)
Theorem delete_keeps_other_lookups seg other bs i b :
  seg ≠ "" → other ≠ "" →
  find_book (parseInt seg) bs = Some (i, b) →
  parseInt other ≠ parseInt seg →
  let bs' := (dispatch coerce_lt now (mkRequest DELETE ["books"; seg] q reqBody) bs).1 in
  (dispatch coerce_lt now' (mkRequest GET ["books"; other] q' payload') bs').2
  = (dispatch coerce_lt now' (mkRequest GET ["books"; other] q' payload') bs).2.
Proof.
  intros Hseg Hother Hfind Hne bs'. subst bs'.
  rewrite dispatch_delete by done. unfold delete_book.
  rewrite param_id_singleton, Hfind. cbn [fst].
  rewrite !dispatch_get by done.
  rewrite !get_book_response, !param_id_singleton.
  destruct (find_book_Some _ _ _ _ Hfind) as (Hb & Hn & _).
  rewrite (find_book_delete_other _ _ _ b); [done..|congruence].
Qed.

End Frames.

Lemma update_is_read_back_witness :
  let out := dispatch numeral_lt 0
               (mkRequest PUT ["books"; "1"] ∅ (Some {["completed" := JBool true]})) books in
  ∃ b', completed b' = Some (JBool true)
        ∧ dispatch numeral_lt 1 (mkRequest GET ["books"; "1"] ∅ None) out.1
          = (out.1, Reply 200 (mkEnvelope true (Some (OneBook b')) None))
        ∧ (dispatch numeral_lt 1 (mkRequest GET ["books"; "2"] ∅ None) out.1).2
          = (dispatch numeral_lt 1 (mkRequest GET ["books"; "2"] ∅ None) books).2.
Proof.
  intros out.
  destruct (update_is_read_back numeral_lt 0 1 ∅ ∅ {["completed" := JBool true]} None
              "1" books 0%nat
              (mkBook 1 (Some (JStr "The Begining After The End"))
                      (Some (JStr "James Vladimir")) (Some (JNum 2018))
                      (Some (JBool false)) 1736899200000))
    as (b' & Hresp & Hget & Hother); [discriminate | reflexivity | by left |].
  exists b'. split_and!; [|exact Hget|apply Hother; discriminate].
  vm_compute in Hresp. injection Hresp as <-. reflexivity.
Defined.

Lemma delete_keeps_other_lookups_witness :
  (dispatch numeral_lt 1 (mkRequest GET ["books"; "3"] ∅ None)
     (dispatch numeral_lt 0 (mkRequest DELETE ["books"; "2"] ∅ None) books).1).2
  = (dispatch numeral_lt 1 (mkRequest GET ["books"; "3"] ∅ None) books).2.
Proof.
  apply (delete_keeps_other_lookups numeral_lt 0 1 ∅ ∅ None None "2" "3" books 1%nat
           (mkBook 2 (Some (JStr "Clean Code")) (Some (JStr "Khine Akira"))
                   (Some (JNum 2008)) (Some (JBool true)) 1708387200000));
    [discriminate | discriminate | reflexivity | discriminate].
Defined.

(** ** The completed-list handler *)

Lemma is_true_strict_spec v : is_true_strict v = true ↔ v = Some (JBool true).
Proof. split; [|by intros ->]. by destruct v as [[|[|]| | | |]|]. Qed.

Lemma filter_sublist {A} (f : A → bool) (l : list A) :
  List.filter f l `sublist_of` l.
Proof.
  induction l as [|x l IH]; [done|]. cbn [List.filter].
  destruct (f x); [by apply sublist_skip | by apply sublist_cons].
Qed.

Lemma completed_books_spec bs b :
  b ∈ List.filter (λ book, is_true_strict (completed book)) bs
  ↔ b ∈ bs ∧ completed b = Some (JBool true).
Proof.
  by rewrite !list_elem_of_In, filter_In, is_true_strict_spec.
Qed.

(** The completed-list handler answers 200 with a sublist of the registry,
    in registry order, that holds exactly the Books whose [completed] is the
    boolean [true], and it leaves the registry as it was. *)
Theorem get_completed_lists_true_only bs :
  ∃ l,
    get_completed bs = (bs, Reply 200 (mkEnvelope true (Some (ManyBooks l)) None))
    ∧ l `sublist_of` bs
    ∧ ∀ b, b ∈ l ↔ b ∈ bs ∧ completed b = Some (JBool true).
Proof.
  eexists. split_and!; [reflexivity | apply filter_sublist |].
  apply completed_books_spec.
Qed.

(** After an accepted update whose payload has [completed: true], the
    completed-list handler lists the updated Book; the other Books it lists
    were completed before. *)
Theorem update_completed_true_is_listed coerce_lt now q payload seg bs i b :
  seg ≠ "" →
  find_book (parseInt seg) bs = Some (i, b) →
  payload !! "completed" = Some (JBool true) →
  truthy (payload !! "year") = false
  ∨ js_le coerce_lt (payload !! "year") 1900 = Some false →
  let out := dispatch coerce_lt now (mkRequest PUT ["books"; seg] q (Some payload)) bs in
  ∃ b' l,
    out.2 = Reply 200 (mkEnvelope true (Some (OneBook b'))
                                  (Some "Book updated successfully"))
    ∧ get_completed out.1
      = (out.1, Reply 200 (mkEnvelope true (Some (ManyBooks l)) None))
    ∧ b' ∈ l
    ∧ ∀ y, y ∈ l → y = b' ∨ (y ∈ bs ∧ completed y = Some (JBool true)).
Proof.
  intros Hseg Hfind Hc Hyear out. subst out. rewrite dispatch_put by done.
  assert (year_rejected coerce_lt (payload !! "year") = Some false) as Hok.
  { unfold year_rejected. destruct (truthy (payload !! "year")); [|done].
    by destruct Hyear. }
  rewrite (update_book_accepts coerce_lt seg payload bs i b) by done.
  cbn [fst snd]. do 2 eexists. split_and!; [reflexivity..| |].
  - apply completed_books_spec. split.
    + apply find_book_Some in Hfind as (Hb & _).
      eapply list_elem_of_lookup_2, list_lookup_insert_eq.
      by eapply lookup_lt_Some.
    + cbn [updated completed]. by rewrite Hc.
  - intros y (Hy & Hdone)%completed_books_spec.
    apply list_elem_of_lookup in Hy as (j & Hj).
    destruct (decide (i = j)) as [<-|Hne].
    + left. apply find_book_Some in Hfind as (Hb & _).
      rewrite list_lookup_insert_eq in Hj by by eapply lookup_lt_Some.
      congruence.
    + right. rewrite list_lookup_insert_ne in Hj by done.
      split; [by eapply list_elem_of_lookup_2|done].
Qed.

Lemma update_completed_true_is_listed_witness :
  let out := dispatch numeral_lt 0
               (mkRequest PUT ["books"; "1"] ∅ (Some {["completed" := JBool true]})) books in
  ∃ b' l,
    get_completed out.1
    = (out.1, Reply 200 (mkEnvelope true (Some (ManyBooks l)) None))
    ∧ b' ∈ l ∧ id b' = 1.
Proof.
  intros out.
  destruct (update_completed_true_is_listed numeral_lt 0 ∅
              {["completed" := JBool true]} "1" books 0%nat
              (mkBook 1 (Some (JStr "The Begining After The End"))
                      (Some (JStr "James Vladimir")) (Some (JNum 2018))
                      (Some (JBool false)) 1736899200000))
    as (b' & l & Hresp & Hl & Hin & _);
    [discriminate | reflexivity | reflexivity | by left |].
  exists b', l. split_and!; [exact Hl | exact Hin |].
  vm_compute in Hresp. injection Hresp as <-. reflexivity.
Defined.

(** ** The search handler *)

Lemma append_cons c s t : String c s +:+ t = String c (s +:+ t).
Proof. reflexivity. Qed.

Lemma append_empty_l s : "" +:+ s = s.
Proof. reflexivity. Qed.

Lemma starts_with_spec p s :
  starts_with p s = true ↔ ∃ post, s = p +:+ post.
Proof.
  revert s. induction p as [|a p IH]; intros s; cbn [starts_with].
  - split; [|done]. intros _. by exists s.
  - destruct s as [|b s].
    + split; [done|]. intros [post H]. by rewrite append_cons in H.
    + rewrite andb_true_iff, Ascii.eqb_eq, IH. split.
      * intros [-> [post ->]]. by exists post.
      * intros [post H]. rewrite append_cons in H. injection H as -> ->.
        eauto.
Qed.

Lemma includes_spec hay needle :
  includes hay needle = true ↔ ∃ pre post, hay = pre +:+ needle +:+ post.
Proof.
  induction hay as [|c hay IH]; cbn [includes];
    rewrite orb_true_iff, starts_with_spec.
  - split.
    + intros [[post H]|]; [|done]. by exists "", post.
    + intros ([|c pre] & post & H); [|by rewrite append_cons in H].
      left. by exists post.
  - rewrite IH. split.
    + intros [[post H]|(pre & post & ->)]; [by exists "", post|].
      by exists (String c pre), post.
    + intros ([|c' pre] & post & H).
      * left. by exists post.
      * right. rewrite append_cons in H. injection H as -> ->. eauto.
Qed.

Lemma includes_itself s : includes s s = true.
Proof.
  apply includes_spec. exists "", "".
  by rewrite append_empty_l, append_empty_r.
Qed.

Lemma filter_by_title_text term bs :
  Forall has_text_title bs →
  ∃ l, filter_by_title term bs = Some l
       ∧ l `sublist_of` bs
       ∧ ∀ b, b ∈ l ↔
              b ∈ bs ∧ ∃ t, title b = Some (JStr t)
                            ∧ includes (toLowerCase t) term = true.
Proof.
  induction 1 as [|x bs [t Ht] _ (l & Hl & Hsub & Hmem)].
  - exists []. split_and!; [done..|]. intros b. split; [by intros ?%elem_of_nil|].
    by intros [?%elem_of_nil _].
  - cbn [filter_by_title]. rewrite Ht, Hl.
    destruct (includes (toLowerCase t) term) eqn:Hinc; eexists;
      (split; [reflexivity|]); (split; [by constructor|]); intros b.
    + rewrite !elem_of_cons, Hmem. split.
      * intros [->|[Hb Htb]]; [eauto 6|tauto].
      * intros [[->|Hb] Htb]; [by left|by right].
    + rewrite elem_of_cons, Hmem. split.
      * intros [Hb Htb]. tauto.
      * intros [[->|Hb] (tb & Htb & Hinc')]; [congruence|eauto].
Qed.

Lemma filter_by_title_throws term bs b :
  b ∈ bs → ¬ has_text_title b → filter_by_title term bs = None.
Proof.
  intros Hb Hno. induction bs as [|x bs IH]; [by apply elem_of_nil in Hb|].
  cbn [filter_by_title]. apply elem_of_cons in Hb as [<-|Hb].
  - destruct (title b) as [[| | |t| |]|] eqn:Ht; try done.
    destruct Hno. by exists t.
  - rewrite (IH Hb). by repeat case_match.
Qed.

Lemma truthy_text t : truthy (Some (JStr t)) = true ↔ t ≠ "".
Proof.
  cbn [truthy]. rewrite negb_true_iff. apply String.eqb_neq.
Qed.

(** The search handler: without a truthy [title] in the query it answers
    400; with a non-empty string, on a registry whose titles are strings, it
    answers 200 with a sublist of the registry, in registry order, that
    holds exactly the Books whose lower-cased title has the lower-cased
    term as a substring. *)
Theorem search_matches_substring q bs :
  (truthy (q !! "title") = false →
   search_books q bs
   = (bs, Reply 400 (mkEnvelope false None
                       (Some "Title query parameter is required"))))
  ∧ (∀ t, q !! "title" = Some (JStr t) → t ≠ "" →
          Forall has_text_title bs →
          ∃ l,
            search_books q bs
            = (bs, Reply 200 (mkEnvelope true (Some (ManyBooks l)) None))
            ∧ l `sublist_of` bs
            ∧ ∀ b, b ∈ l ↔
                   b ∈ bs ∧ ∃ tb pre post,
                     title b = Some (JStr tb)
                     ∧ toLowerCase tb = pre +:+ toLowerCase t +:+ post).
Proof.
  split.
  - intros Hfalsy. unfold search_books. by rewrite Hfalsy.
  - intros t Ht Hne Htext. unfold search_books. rewrite Ht.
    apply truthy_text in Hne. rewrite Hne. cbn [negb].
    destruct (filter_by_title_text (toLowerCase t) bs Htext)
      as (l & -> & Hsub & Hmem).
    exists l. split_and!; [done..|]. intros b. rewrite Hmem.
    split; intros [Hb (tb & Htb)]; (split; [done|]).
    + destruct Htb as [Htb (pre & post & Hinc)%includes_spec]. eauto 6.
    + destruct Htb as (pre & post & Htb & Hinc). exists tb. split; [done|].
      apply includes_spec. eauto.
Qed.

Lemma search_matches_substring_witness :
  ∃ l, search_books {["title" := JStr "CODE"]} books
       = (books, Reply 200 (mkEnvelope true (Some (ManyBooks l)) None))
       ∧ l `sublist_of` books.
Proof.
  destruct (search_matches_substring {["title" := JStr "CODE"]} books)
    as [_ Hfound].
  destruct (Hfound "CODE") as (l & Hl & Hsub & _);
    [reflexivity | discriminate | | by exists l].
  unfold books. repeat (apply Forall_cons; split; [by eexists|]).
  apply Forall_nil_2.
Defined.

(** Searching for the title of a Book of the registry, in any letter case,
    finds that Book. *)
Theorem search_finds_own_title q bs b t tb :
  Forall has_text_title bs →
  b ∈ bs → title b = Some (JStr tb) → tb ≠ "" →
  q !! "title" = Some (JStr t) → toLowerCase t = toLowerCase tb →
  ∃ l,
    search_books q bs
    = (bs, Reply 200 (mkEnvelope true (Some (ManyBooks l)) None))
    ∧ b ∈ l.
Proof.
  intros Htext Hb Htb Hne Ht Hlow.
  assert (t ≠ "") as Hterm.
  { intros ->. destruct tb; [done|discriminate Hlow]. }
  unfold search_books. rewrite Ht.
  apply truthy_text in Hterm. rewrite Hterm. cbn [negb].
  destruct (filter_by_title_text (toLowerCase t) bs Htext)
    as (l & -> & _ & Hmem).
  exists l. split; [done|]. apply Hmem. split; [done|].
  exists tb. split; [done|]. rewrite Hlow. apply includes_itself.
Qed.

Lemma search_finds_own_title_witness :
  ∃ l, search_books {["title" := JStr "clean CODE"]} books
       = (books, Reply 200 (mkEnvelope true (Some (ManyBooks l)) None))
       ∧ mkBook 2 (Some (JStr "Clean Code")) (Some (JStr "Khine Akira"))
                (Some (JNum 2008)) (Some (JBool true)) 1708387200000 ∈ l.
Proof.
  apply (search_finds_own_title _ _ _ "clean CODE" "Clean Code");
    [|right; left|reflexivity|discriminate|reflexivity|reflexivity].
  unfold books. repeat (apply Forall_cons; split; [by eexists|]).
  apply Forall_nil_2.
Defined.

(** The search handler throws, where the framework answers 500, when the
    query's [title] is truthy but no string, and when it is a non-empty
    string but some Book of the registry has a title that is no string; the
    registry stays as it was. *)
Theorem search_throws_without_text q bs :
  (∀ v, q !! "title" = Some v → truthy (Some v) = true →
        (∀ t, v ≠ JStr t) → search_books q bs = (bs, Thrown))
  ∧ (∀ t b, q !! "title" = Some (JStr t) → t ≠ "" →
            b ∈ bs → ¬ has_text_title b →
            search_books q bs = (bs, Thrown)).
Proof.
  split.
  - intros v Hv Htruthy Hno. unfold search_books. rewrite Hv, Htruthy.
    cbn [negb]. destruct v; try done. by destruct (Hno s).
  - intros t b Ht Hne Hb Hno. unfold search_books. rewrite Ht.
    apply truthy_text in Hne. rewrite Hne. cbn [negb].
    by rewrite (filter_by_title_throws _ _ b).
Qed.

Lemma search_throws_without_text_witness :
  search_books {["title" := JArr [JStr "a"; JStr "b"]]} books = (books, Thrown).
Proof.
  destruct (search_throws_without_text {["title" := JArr [JStr "a"; JStr "b"]]}
              books) as [Hquery _].
  apply (Hquery (JArr [JStr "a"; JStr "b"]));
    [reflexivity | reflexivity | discriminate].
Defined.

(** The create handler accepts a truthy title of any type; once a Book whose
    title is no string is in the registry, the search handler throws for
    every non-empty search term. *)
Theorem create_non_text_title_breaks_search coerce_lt now qc payload q t bs :
  truthy (payload !! "title") = true →
  (∀ s, payload !! "title" ≠ Some (JStr s)) →
  truthy (payload !! "author") = true →
  truthy (payload !! "year") = true →
  js_le coerce_lt (payload !! "year") 1900 = Some false →
  q !! "title" = Some (JStr t) → t ≠ "" →
  let out := dispatch coerce_lt now (mkRequest POST ["books"] qc (Some payload)) bs in
  (∃ newBook, out.2 = Reply 201 (mkEnvelope true (Some (OneBook newBook)) None)
              ∧ title newBook = payload !! "title")
  ∧ search_books q out.1 = (out.1, Thrown).
Proof.
  intros Ht Hno Ha Hy Hle Hq Hne out. subst out.
  rewrite dispatch_post, create_book_accepts by done. cbn [fst snd].
  split; [by eexists|].
  unfold search_books. rewrite Hq.
  apply truthy_text in Hne. rewrite Hne. cbn [negb].
  erewrite filter_by_title_throws; [done| |].
  - apply elem_of_app. right. by apply list_elem_of_singleton.
  - intros [s Hs]. cbn [title] in Hs. by apply (Hno s).
Qed.

Lemma create_non_text_title_breaks_search_witness :
  let payload := list_to_map [("title", JNum 1984); ("author", JStr "Orwell");
                              ("year", JNum 1949)] in
  let out := dispatch numeral_lt 0 (mkRequest POST ["books"] ∅ (Some payload)) books in
  search_books {["title" := JStr "clean"]} out.1 = (out.1, Thrown).
Proof.
  intros payload out.
  apply (create_non_text_title_breaks_search numeral_lt 0 ∅ payload
           {["title" := JStr "clean"]} "clean" books);
    [reflexivity | | reflexivity.. | discriminate].
  intros s. discriminate.
Defined.

(** ** What every request keeps *)

Section Invariants.

Variable coerce_lt : Z → Json → option (option bool).

(** The registry after a request: as before; or one position rewritten by an
    accepted update; or one position removed by a delete; or one Book
    appended by an accepted create. *)
Lemma dispatch_cases now req bs :
  let bs' := (dispatch coerce_lt now req bs).1 in
  bs' = bs
  ∨ (method req = PUT ∧ ∃ payload i b,
       body req = Some payload
       ∧ bs !! i = Some b
       ∧ year_rejected coerce_lt (payload !! "year") = Some false
       ∧ bs' = <[i := updated (payload !! "title") (payload !! "author")
                              (payload !! "year") (payload !! "completed") b]> bs)
  ∨ (method req = DELETE ∧ ∃ i b, bs !! i = Some b ∧ bs' = delete i bs)
  ∨ (method req = POST ∧ ∃ payload,
       body req = Some payload
       ∧ truthy (payload !! "title") = true
       ∧ truthy (payload !! "author") = true
       ∧ truthy (payload !! "year") = true
       ∧ js_le coerce_lt (payload !! "year") 1900 = Some false
       ∧ bs' = bs ++ [mkBook (newId bs) (payload !! "title")
                             (payload !! "author") (payload !! "year")
                             (Some (JBool false)) now]).
Proof.
  intros bs'. subst bs'. unfold dispatch.
  destruct (route routes req) as [[h params]|] eqn:Hroute; [|by left].
  apply route_method in Hroute as (Hpost & Hput & Hdel).
  destruct h; cbn [run].
  - by left.
  - left. apply get_book_frame.
  - unfold create_book. destruct (body req) as [payload|]; [|by left].
    destruct (truthy (payload !! "title")) eqn:Ht,
             (truthy (payload !! "author")) eqn:Ha,
             (truthy (payload !! "year")) eqn:Hy; try by left.
    cbn [negb orb].
    destruct (js_le coerce_lt (payload !! "year") 1900) as [[|]|] eqn:Hle;
      try by left.
    do 3 right. split; [by apply Hpost|]. exists payload. by split_and!.
  - unfold update_book.
    destruct (find_book _ bs) as [[i b]|] eqn:Hfind; [|by left].
    destruct (body req) as [payload|]; [|by left].
    destruct (year_rejected coerce_lt (payload !! "year")) as [[|]|] eqn:Hyear;
      try by left.
    right; left. split; [by apply Hput|]. exists payload, i, b.
    apply find_book_Some in Hfind as (Hb & _).
    split_and!; [done..|]. cbn [fst]. by apply assign_fields_insert.
  - unfold delete_book.
    destruct (find_book _ bs) as [[i b]|] eqn:Hfind; [|by left].
    do 2 right; left. split; [by apply Hdel|]. exists i, b.
    by apply find_book_Some in Hfind as (Hb & _).
  - by left.
  - left. unfold search_books. by repeat case_match.
Qed.

Lemma ids_increasing_books : ids_increasing books.
Proof.
  intros i j a b Hlt Hi Hj. unfold ids, books in Hi, Hj.
  destruct i as [|[|[|i]]], j as [|[|[|j]]]; simplify_eq/=; lia.
Qed.

Lemma ids_increasing_delete k bs : ids_increasing bs → ids_increasing (delete k bs).
Proof.
  intros Hinc i j a b Hlt. rewrite ids_delete, !list_lookup_delete.
  intros Hi Hj. eapply Hinc; [|done..].
  repeat case_decide; lia.
Qed.

Lemma ids_increasing_push bs nb :
  id nb = newId bs → ids_increasing bs → ids_increasing (bs ++ [nb]).
Proof.
  intros Hid Hinc i j a b Hlt. rewrite ids_app, Hid.
  intros Hi Hj.
  assert (Hlen : length (ids bs) = length bs) by apply length_fmap.
  apply lookup_app_Some in Hj as [Hj|[Hge Hj]].
  - rewrite lookup_app_l in Hi by (apply lookup_lt_Some in Hj; lia). eauto.
  - apply list_lookup_singleton_Some in Hj as [Hj <-].
    rewrite lookup_app_l in Hi by lia.
    apply newId_fresh. by eapply list_elem_of_lookup_2.
Qed.

Lemma dispatch_ids_increasing now req bs :
  ids_increasing bs → ids_increasing (dispatch coerce_lt now req bs).1.
Proof.
  intros Hinc.
  destruct (dispatch_cases now req bs)
    as [->|[(_ & p & i & b & _ & Hb & _ & ->)|[(_ & i & b & _ & ->)
       |(_ & p & _ & _ & _ & _ & _ & ->)]]].
  - done.
  - unfold ids_increasing. by rewrite (ids_insert i b).
  - by apply ids_increasing_delete.
  - by apply ids_increasing_push.
Qed.

Lemma increasing_last_is_max bs l m :
  ids_increasing bs → ids bs = l ++ [m] → newId bs = m + 1.
Proof.
  intros Hinc Hids.
  destruct (newId_nonempty bs) as (m' & Hm' & Hub & ->).
  { intros ->. by destruct l. }
  assert (m ≤ m').
  { apply Hub. rewrite Hids. apply elem_of_app. right. by left. }
  rewrite Hids in Hm'. apply elem_of_app in Hm' as [Hm'|Hm'].
  - apply list_elem_of_lookup in Hm' as (i & Hi).
    assert (m' < m); [|lia].
    apply (Hinc i (length l)); [by eapply lookup_lt_Some| |].
    + rewrite Hids. by apply lookup_app_l_Some.
    + rewrite Hids. by rewrite list_lookup_middle.
  - apply list_elem_of_singleton in Hm'. lia.
Qed.

(** In every registry the process can hold the ids grow along the registry:
    the Books are in the order of their ids, and the id given to the next
    Book is the id of the last Book plus one. *)
Theorem registry_stays_sorted_by_id bs :
  reachable coerce_lt bs →
  ids_increasing bs ∧ ∀ l m, ids bs = l ++ [m] → newId bs = m + 1.
Proof.
  intros Hreach.
  assert (ids_increasing bs) as Hinc.
  { induction Hreach as [|bs now req _ IH];
      [apply ids_increasing_books | by apply dispatch_ids_increasing]. }
  split; [done|]. intros l m. by apply increasing_last_is_max.
Qed.

Lemma fields_ok_books : Forall (fields_ok coerce_lt) books.
Proof.
  unfold books. repeat (apply Forall_cons; split; [by repeat split|]).
  apply Forall_nil_2.
Qed.

Lemma fields_ok_updated t a y c b :
  year_rejected coerce_lt y = Some false →
  fields_ok coerce_lt b → fields_ok coerce_lt (updated t a y c b).
Proof.
  intros Hyear (Ht & Ha & Hy & Hle & Hc). unfold fields_ok, updated, year_rejected in *.
  cbn [title author year completed].
  destruct (truthy t) eqn:Et, (truthy a) eqn:Ea, (truthy y) eqn:Ey, c;
    split_and!; done.
Qed.

(** In every registry the process can hold every Book has a truthy [title],
    [author] and [year], a [year] for which [year <= 1900] is false, and a
    [completed] that is not [undefined]. *)
Theorem stored_fields_stay_valid bs :
  reachable coerce_lt bs → Forall (fields_ok coerce_lt) bs.
Proof.
  induction 1 as [|bs now req _ IH]; [apply fields_ok_books|].
  destruct (dispatch_cases now req bs)
    as [->|[(_ & p & i & b & _ & Hb & Hyear & ->)|[(_ & i & b & _ & ->)
       |(_ & p & _ & Ht & Ha & Hy & Hle & ->)]]].
  - done.
  - apply Forall_insert; [done|]. apply fields_ok_updated; [done|].
    by eapply (Forall_lookup_1 _ bs).
  - by apply Forall_delete.
  - apply Forall_app. split; [done|]. apply Forall_singleton.
    by repeat split.
Qed.

(** No request changes the [id] or the [createdAt] of a Book that stays in
    the registry: the list of these pairs is as before, or has lost one
    position to a delete, or has gained at its end the pair of the next id
    and the current time by a create. *)
Theorem no_request_rewrites_id_or_createdAt now req bs :
  let bs' := (dispatch coerce_lt now req bs).1 in
  stamp <$> bs' = stamp <$> bs
  ∨ (method req = DELETE
     ∧ ∃ i, is_Some (bs !! i) ∧ stamp <$> bs' = delete i (stamp <$> bs))
  ∨ (method req = POST ∧ stamp <$> bs' = (stamp <$> bs) ++ [(newId bs, now)]).
Proof.
  intros bs'. subst bs'.
  destruct (dispatch_cases now req bs)
    as [->|[(_ & p & i & b & _ & Hb & _ & ->)|[(Hm & i & b & Hb & ->)
       |(Hm & p & _ & _ & _ & _ & _ & ->)]]].
  - by left.
  - left. rewrite list_fmap_insert. apply list_insert_id.
    by rewrite list_lookup_fmap, Hb.
  - right; left. split; [done|]. exists i. split; [by eexists|].
    apply list_fmap_delete.
  - right; right. split; [done|]. by rewrite fmap_app.
Qed.

(** In a registry the process can hold, a get-by-id, update or delete
    request whose parsed id is not positive, or is at least the id the next
    create would assign, answers 404 and changes nothing. *)
Theorem ids_out_of_range_not_found now m q payload seg n bs :
  reachable coerce_lt bs →
  m ≠ POST → seg ≠ "" → parseInt seg = Some n →
  n ≤ 0 ∨ newId bs ≤ n →
  dispatch coerce_lt now (mkRequest m ["books"; seg] q payload) bs
  = (bs, Reply 404 (mkEnvelope false None (Some "Book not found"))).
Proof.
  intros Hreach Hm Hseg Hparse Hrange.
  apply dispatch_unknown_id; [done..|]. rewrite Hparse.
  apply reachable_ids_ok in Hreach as [_ Hpos].
  unfold find_book. apply list_find_None, Forall_forall.
  intros b Hb Hid. unfold id_is in Hid. injection Hid as ->.
  assert (id b ∈ ids bs) as Hin by by apply list_elem_of_fmap_2.
  rewrite Forall_forall in Hpos. specialize (Hpos _ Hin).
  apply newId_fresh in Hin. lia.
Qed.

End Invariants.

Lemma registry_stays_sorted_by_id_witness :
  let bs1 := (dispatch numeral_lt 0 (mkRequest DELETE ["books"; "2"] ∅ None) books).1 in
  ids bs1 = [1; 3] ∧ ids_increasing bs1 ∧ newId bs1 = 4.
Proof.
  intros bs1.
  destruct (registry_stays_sorted_by_id numeral_lt bs1) as [Hinc Hlast].
  { subst bs1. apply reach_step, reach_init. }
  split_and!; [reflexivity | exact Hinc |].
  apply (Hlast [1] 3). reflexivity.
Defined.

Lemma stored_fields_stay_valid_witness :
  let payload := list_to_map [("title", JStr ""); ("year", JNum 0);
                              ("author", JStr "Robert C. Martin")] in
  let bs1 := (dispatch numeral_lt 0 (mkRequest PUT ["books"; "2"] ∅ (Some payload)) books).1 in
  bs1 !! 1%nat
  = Some (mkBook 2 (Some (JStr "Clean Code")) (Some (JStr "Robert C. Martin"))
                 (Some (JNum 2008)) (Some (JBool true)) 1708387200000)
  ∧ Forall (fields_ok numeral_lt) bs1.
Proof.
  intros payload bs1. split; [reflexivity|].
  apply stored_fields_stay_valid. subst bs1. apply reach_step, reach_init.
Defined.

Lemma ids_out_of_range_not_found_witness :
  dispatch numeral_lt 0 (mkRequest GET ["books"; "-1"] ∅ None) books
  = (books, Reply 404 (mkEnvelope false None (Some "Book not found")))
  ∧ dispatch numeral_lt 0 (mkRequest DELETE ["books"; "4"] ∅ None) books
    = (books, Reply 404 (mkEnvelope false None (Some "Book not found"))).
Proof.
  split.
  - apply (ids_out_of_range_not_found numeral_lt 0 GET ∅ None "-1" (-1) books);
      [apply reach_init | discriminate | discriminate | reflexivity | left; lia].
  - apply (ids_out_of_range_not_found numeral_lt 0 DELETE ∅ None "4" 4 books);
      [apply reach_init | discriminate | discriminate | reflexivity
      | right; vm_compute; discriminate].
Defined.

(** ** White space and signs in the id segment *)

Lemma skip_ws_app ws s : all_ws ws = true → skip_ws (ws +:+ s) = skip_ws s.
Proof.
  induction ws as [|c ws IH]; [done|]. cbn [all_ws].
  intros [Hc Hws]%andb_prop. rewrite append_cons. cbn [skip_ws].
  rewrite Hc. by apply IH.
Qed.

Lemma parseInt_skips_ws ws s : all_ws ws = true → parseInt (ws +:+ s) = parseInt s.
Proof. intros Hws. unfold parseInt. by rewrite skip_ws_app. Qed.

Lemma parseInt_signed (sign : ascii) ds rest :
  sign = "+"%char ∨ sign = "-"%char →
  ds ≠ "" → all_digits ds = true → no_digit_ahead rest = true →
  hex_prefixed (ds +:+ rest) = false →
  parseInt (String sign (ds +:+ rest))
  = Some ((if Ascii.eqb sign "-" then -1 else 1) * decimal_value ds).
Proof.
  intros Hsign Hne Hds Hrest Hhex. unfold parseInt.
  assert (skip_ws (String sign (ds +:+ rest)) = String sign (ds +:+ rest)) as ->.
  { by destruct Hsign as [->| ->]. }
  assert (strip_sign (String sign (ds +:+ rest))
          = (if Ascii.eqb sign "-" then -1 else 1, ds +:+ rest)) as ->.
  { by destruct Hsign as [->| ->]. }
  rewrite strip_radix_decimal, read_digits_numeral by done.
  destruct ds; [done|]. reflexivity.
Qed.

(** [parseInt] skips leading white space and reads one sign: a segment made
    of white space, then an optional [+], then decimal digits (not opening
    with [0x] or [0X]) and anything that starts with no digit is treated as
    the id the digits spell, the request doing what it does for the digits
    alone; with a [-] in place of the [+] it parses to the negated
    number. *)
Theorem parseInt_skips_space_and_sign ws ds rest :
  all_ws ws = true →
  ds ≠ "" → all_digits ds = true → no_digit_ahead rest = true →
  hex_prefixed (ds +:+ rest) = false →
  parseInt (ws +:+ ds +:+ rest) = Some (decimal_value ds)
  ∧ parseInt (ws +:+ "+" +:+ ds +:+ rest) = Some (decimal_value ds)
  ∧ parseInt (ws +:+ "-" +:+ ds +:+ rest) = Some (- decimal_value ds)
  ∧ ∀ coerce_lt now m q payload bs,
      m ≠ POST →
      dispatch coerce_lt now
        (mkRequest m ["books"; ws +:+ "+" +:+ ds +:+ rest] q payload) bs
      = dispatch coerce_lt now (mkRequest m ["books"; ds] q payload) bs.
Proof.
  intros Hws Hne Hds Hrest Hhex.
  assert (parseInt (ws +:+ "+" +:+ ds +:+ rest) = Some (decimal_value ds)) as Hplus.
  { rewrite parseInt_skips_ws by done.
    change ("+" +:+ ds +:+ rest) with (String "+" (ds +:+ rest)).
    rewrite parseInt_signed by auto.
    change (Ascii.eqb "+" "-") with false. cbn iota. f_equal; lia. }
  split_and!; [| done | |].
  - rewrite parseInt_skips_ws by done. by apply parseInt_prefix.
  - rewrite parseInt_skips_ws by done.
    change ("-" +:+ ds +:+ rest) with (String "-" (ds +:+ rest)).
    rewrite parseInt_signed by auto.
    change (Ascii.eqb "-" "-") with true. cbn iota. f_equal; lia.
  - intros coerce_lt now m q payload bs Hm.
    apply dispatch_by_parsed_id; [done| |by destruct ds|].
    + destruct ws; [|done]. rewrite append_empty_l. discriminate.
    + rewrite Hplus. symmetry.
      rewrite <- (append_empty_r ds) at 1.
      apply parseInt_prefix; try done.
      rewrite append_empty_r. by apply digits_not_hex_prefixed.
Qed.

Lemma parseInt_skips_space_and_sign_witness :
  parseInt " +2abc" = Some 2
  ∧ parseInt " -2abc" = Some (-2)
  ∧ dispatch numeral_lt 0 (mkRequest GET ["books"; " +2abc"] ∅ None) books
    = dispatch numeral_lt 0 (mkRequest GET ["books"; "2"] ∅ None) books.
Proof.
  destruct (parseInt_skips_space_and_sign " " "2" "abc")
    as (_ & Hplus & Hminus & Hsame); [reflexivity | discriminate | reflexivity..|].
  split_and!; [exact Hplus | exact Hminus |].
  apply Hsame. discriminate.
Defined.

(** ** Listing, empty updates, successive creates, and the shape of answers *)

(** [GET /books], whatever the case of the letters of the path, the query
    and the body, answers 200 with the whole registry in its order and
    leaves it as it was. *)
Theorem list_all_returns_registry coerce_lt now s q payload bs :
  toLowerCase s = "books" →
  dispatch coerce_lt now (mkRequest GET [s] q payload) bs
  = (bs, Reply 200 (mkEnvelope true (Some (ManyBooks bs)) None)).
Proof.
  intros Hs. unfold dispatch. cbn [route routes method path match_path].
  change (toLowerCase "books") with "books". rewrite Hs. reflexivity.
Qed.

Lemma list_all_returns_registry_witness :
  dispatch numeral_lt 0 (mkRequest GET ["Books"] ∅ None) books
  = (books, Reply 200 (mkEnvelope true (Some (ManyBooks books)) None)).
Proof. apply list_all_returns_registry. reflexivity. Defined.

(** An update on an existing Book whose parsed body supplies no truthy
    [title], [author] or [year] and no [completed] (the empty object for
    one) is accepted: it answers 200 with the Book as it is and changes
    nothing.  When [req.body] is undefined (no body was parsed) the
    destructuring throws instead, and nothing is changed either. *)
Theorem update_without_fields_changes_nothing coerce_lt now q seg bs i b :
  seg ≠ "" →
  find_book (parseInt seg) bs = Some (i, b) →
  (∀ payload,
      truthy (payload !! "title") = false →
      truthy (payload !! "author") = false →
      truthy (payload !! "year") = false →
      payload !! "completed" = None →
      dispatch coerce_lt now (mkRequest PUT ["books"; seg] q (Some payload)) bs
      = (bs, Reply 200 (mkEnvelope true (Some (OneBook b))
                                   (Some "Book updated successfully"))))
  ∧ dispatch coerce_lt now (mkRequest PUT ["books"; seg] q None) bs
    = (bs, Thrown).
Proof.
  intros Hseg Hfind. split.
  - intros payload Ht Ha Hy Hc. rewrite dispatch_put by done.
    rewrite (update_book_accepts coerce_lt seg payload bs i b);
      [|done|unfold year_rejected; by rewrite Hy].
    unfold updated. rewrite Ht, Ha, Hy, Hc.
    apply find_book_Some in Hfind as (Hb & _).
    destruct b. cbn [id title author year completed createdAt].
    by rewrite list_insert_id.
  - rewrite dispatch_put by done. unfold update_book.
    by rewrite param_id_singleton, Hfind.
Qed.

Lemma update_without_fields_changes_nothing_witness :
  dispatch numeral_lt 0 (mkRequest PUT ["books"; "3"] ∅ (Some ∅)) books
  = (books,
     Reply 200 (mkEnvelope true
       (Some (OneBook (mkBook 3 (Some (JStr "Saga of Tanya the Evil"))
                              (Some (JStr "Saori Metsubayashi")) (Some (JNum 2008))
                              (Some (JBool true)) 1708387200000)))
       (Some "Book updated successfully")))
  ∧ (dispatch numeral_lt 0
       (mkRequest PUT ["books"; "3"] ∅
          (Some (list_to_map [("title", JStr ""); ("year", JNum 0)]))) books).1
    = books
  ∧ dispatch numeral_lt 0 (mkRequest PUT ["books"; "3"] ∅ None) books
    = (books, Thrown).
Proof.
  destruct (update_without_fields_changes_nothing numeral_lt 0 ∅ "3" books 2%nat
              (mkBook 3 (Some (JStr "Saga of Tanya the Evil"))
                      (Some (JStr "Saori Metsubayashi")) (Some (JNum 2008))
                      (Some (JBool true)) 1708387200000))
    as [Hparsed Hnone]; [discriminate | reflexivity |].
  split_and!.
  - apply (Hparsed ∅); reflexivity.
  - rewrite (Hparsed (list_to_map [("title", JStr ""); ("year", JNum 0)]));
      reflexivity.
  - exact Hnone.
Defined.

Lemma newId_push bs nb : id nb = newId bs → newId (bs ++ [nb]) = newId bs + 1.
Proof.
  intros Hid.
  destruct (newId_nonempty (bs ++ [nb])) as (m & Hm & Hub & ->).
  { by destruct bs. }
  rewrite ids_app, Hid in Hm, Hub.
  assert (newId bs ≤ m).
  { apply Hub, elem_of_app. right. by left. }
  apply elem_of_app in Hm as [Hm%newId_fresh|Hm%list_elem_of_singleton]; lia.
Qed.

(** Two create requests accepted one after the other append two Books whose
    ids are consecutive. *)
Theorem successive_creates_get_consecutive_ids
    coerce_lt now1 now2 q1 q2 payload1 payload2 bs :
  truthy (payload1 !! "title") = true → truthy (payload1 !! "author") = true →
  truthy (payload1 !! "year") = true →
  js_le coerce_lt (payload1 !! "year") 1900 = Some false →
  truthy (payload2 !! "title") = true → truthy (payload2 !! "author") = true →
  truthy (payload2 !! "year") = true →
  js_le coerce_lt (payload2 !! "year") 1900 = Some false →
  let bs1 := (dispatch coerce_lt now1 (mkRequest POST ["books"] q1 (Some payload1)) bs).1 in
  let bs2 := (dispatch coerce_lt now2 (mkRequest POST ["books"] q2 (Some payload2)) bs1).1 in
  ∃ b1 b2, bs2 = bs ++ [b1; b2] ∧ id b1 = newId bs ∧ id b2 = id b1 + 1.
Proof.
  intros Ht1 Ha1 Hy1 Hle1 Ht2 Ha2 Hy2 Hle2 bs1 bs2. subst bs2 bs1.
  rewrite !dispatch_post.
  rewrite (create_book_accepts coerce_lt now1 payload1 bs) by done. cbn [fst].
  rewrite create_book_accepts by done. cbn [fst].
  do 2 eexists. split; [by rewrite <- app_assoc|]. cbn [id].
  split; [done|]. by apply newId_push.
Qed.

Lemma successive_creates_get_consecutive_ids_witness :
  let p := list_to_map [("title", JStr "X"); ("author", JStr "Y");
                        ("year", JNum 2000)] in
  let bs1 := (dispatch numeral_lt 0 (mkRequest POST ["books"] ∅ (Some p)) []).1 in
  let bs2 := (dispatch numeral_lt 1 (mkRequest POST ["books"] ∅ (Some p)) bs1).1 in
  ∃ b1 b2, bs2 = [b1; b2] ∧ id b1 = 1 ∧ id b2 = id b1 + 1.
Proof.
  intros p bs1 bs2.
  destruct (successive_creates_get_consecutive_ids numeral_lt 0 1 ∅ ∅ p p [])
    as (b1 & b2 & H2 & H1 & Hnext); [reflexivity..|].
  by exists b1, b2.
Defined.

Lemma route_method_get req h params :
  route routes req = Some (h, params) →
  h ≠ CreateBook → h ≠ UpdateBook → h ≠ DeleteBook → method req = GET.
Proof.
  destruct req as [m p q b]. unfold routes. cbn [route method path].
  destruct m; repeat case_decide; try done;
    repeat (case_match; try done); naive_solver.
Qed.

(** Every JSON answer is a success with status 200 or 201, or a failure with
    status 400 or 404, no data and a message; 201 is only given to a POST
    and 404 never to one. *)
Theorem answers_are_well_formed coerce_lt now req bs st e :
  (dispatch coerce_lt now req bs).2 = Reply st e →
  (success e = true ∧ (st = 200 ∨ st = 201 ∧ method req = POST))
  ∨ (success e = false ∧ (st = 400 ∨ st = 404 ∧ method req ≠ POST)
     ∧ data e = None ∧ is_Some (message e)).
Proof.
  unfold dispatch.
  destruct (route routes req) as [[h params]|] eqn:Hroute; [|done].
  pose proof (route_method_get _ _ _ Hroute) as Hget.
  apply route_method in Hroute as (Hpost & Hput & Hdel).
  destruct h; cbn [run];
    unfold get_books, get_book, create_book, update_book, delete_book,
           get_completed, search_books, not_found, fail, ok_books;
    repeat case_match; intros [= <- <-]; cbn [success data message];
    try (assert (method req = GET) as Hm by (apply Hget; discriminate));
    try specialize (Hpost eq_refl);
    try specialize (Hput eq_refl); try specialize (Hdel eq_refl);
    first [ left; split; [done|]; first [by left | by right]
          | right; split_and!;
            [done | first [by left | right; split; [done|congruence]]
            | done | by eexists] ].
Qed.

Lemma answers_are_well_formed_witness :
  let req := mkRequest DELETE ["books"; "99"] ∅ None in
  let e := mkEnvelope false None (Some "Book not found") in
  (success e = true ∧ (404 = 200 ∨ 404 = 201 ∧ method req = POST))
  ∨ (success e = false ∧ (404 = 400 ∨ 404 = 404 ∧ method req ≠ POST)
     ∧ data e = None ∧ is_Some (message e)).
Proof.
  intros req e.
  apply (answers_are_well_formed numeral_lt 0 req books 404 e). reflexivity.
Defined.
